(** * The dialogue manager of the medical-assistant chatbot

    A shallow embedding of [wit_test/witTest.js]: the slot-filling session,
    the entity merge, the cancellation / flow / confirmation decisions of
    [generateResponse], the error mapping of [askGemini] and one turn of
    [chatLoop].

    JavaScript values are kept as the code sees them: a slot or a JSON
    property is [null], [undefined] (also: the property is missing) or a
    string; the truthiness test of [||], [!] and [if] is [truthy]; a property
    read on [undefined] raises [TypeError]; numbers are binary64 floats.

    The session is the one mutable object of the program: statements are
    functions from the session to the session they leave and the way they
    end ([M]). The two services and [toLowerCase] are the environment: the
    program is defined over them in [Section Program], and every property
    holds for all of them. [generateResponse] is [dialogue], its lines up to
    the call of [askGemini], followed by that call. *)

From Stdlib Require Import PrimFloat.
From Stdlib Require DecimalString.
From stdpp Require Import gmap strings.

Local Open Scope bool_scope.

(* 0.7 and 0.5 denote the nearest binary64 values, as in JavaScript. *)
Set Warnings "-inexact-float".

(** ** JavaScript values and completions *)

Inductive jsval : Type :=
| JNull
| JUndefined
| JStr (s : string).

(** ToBoolean: [null], [undefined] and the empty string are falsy. *)
Definition truthy (v : jsval) : bool :=
  match v with
  | JStr EmptyString => false
  | JStr _ => true
  | JNull | JUndefined => false
  end.

(** ToString, as a template literal applies it. *)
Definition toStr (v : jsval) : string :=
  match v with
  | JNull => "null"
  | JUndefined => "undefined"
  | JStr s => s
  end.

(** [v === 'lit'] for a string literal. *)
Definition strictEqStr (v : jsval) (lit : string) : bool :=
  match v with
  | JStr s => String.eqb s lit
  | _ => false
  end.

(** [a || b] on values both already evaluated. *)
Definition jsOr (a b : jsval) : jsval := if truthy a then a else b.

Inductive jsError : Type :=
| TypeError
| Error (msg : string).

(** How the evaluation of an expression or a call ends. *)
Inductive completion (A : Type) : Type :=
| Throw (e : jsError)
| Return (a : A).
Arguments Throw {A} e.
Arguments Return {A} a.

(** [x || y] where evaluating [y] may throw: [y] is evaluated only when [x]
    is falsy, so its exception counts only then. *)
Definition orElse (x y : completion jsval) : completion jsval :=
  match x with
  | Throw e => Throw e
  | Return a => if truthy a then Return a else y
  end.
Infix "|||" := orElse (at level 50, left associativity).

(** [try { body } catch (err) { handler }]. *)
Definition tryCatch {A : Type} (body : completion A) (handler : jsError -> completion A)
  : completion A :=
  match body with
  | Throw e => handler e
  | Return a => Return a
  end.

(** Numbers: [c || 0] and the comparisons of the flow decision. *)
Definition numTruthy (c : float) : bool :=
  negb (PrimFloat.eqb c 0%float) && PrimFloat.eqb c c.

Definition numOr0 (c : option float) : float :=
  match c with
  | Some x => if numTruthy x then x else 0%float
  | None => 0%float
  end.

(** [a > b] on numbers. *)
Definition gt (a b : float) : bool := PrimFloat.ltb b a.

(** ** Strings *)

(** [s.includes(needle)]. *)
Fixpoint includes (s needle : string) : bool :=
  String.prefix needle s
  || match s with
     | EmptyString => false
     | String _ s' => includes s' needle
     end.

Definition dquote : string := String (Ascii.ascii_of_nat 34) EmptyString.
Definition newline : string := String (Ascii.ascii_of_nat 10) EmptyString.

(** [String.prototype.toLowerCase] restricted to the letters A-Z; it agrees
    with the built-in on text whose upper-case letters are all ASCII, and is
    what the closed examples below run with. *)
Definition lowerAscii (c : Ascii.ascii) : Ascii.ascii :=
  let n := Ascii.nat_of_ascii c in
  if (65 <=? n)%nat && (n <=? 90)%nat then Ascii.ascii_of_nat (n + 32) else c.

Fixpoint asciiToLowerCase (s : string) : string :=
  match s with
  | EmptyString => EmptyString
  | String c s' => String (lowerAscii c) (asciiToLowerCase s')
  end.

(** ** The data of a turn *)

(** The session object of line 16. *)
Record Session : Type := mkSession {
  hastane : jsval;
  bolum : jsval;
  datetime : jsval
}.

Definition initialSession : Session :=
  {| hastane := JNull; bolum := JNull; datetime := JNull |}.

(** [Object.keys(session).forEach(key => session[key] = null)]. *)
Definition clearSession (s : Session) : Session :=
  {| hastane := JNull; bolum := JNull; datetime := JNull |}.

(** An element of an entity's [values] list. *)
Record ValueItem : Type := mkValueItem {
  itemValue : jsval
}.

(** An entity as Wit.ai reports it: [value], and for date/time parses an
    optional [values] list of candidates. *)
Record Entity : Type := mkEntity {
  value : jsval;
  values : option (list ValueItem)
}.

Record Intent : Type := mkIntent {
  name : jsval;
  confidence : option float
}.

(** The JSON answer of Wit.ai; [None] is a property that is missing. *)
Record WitData : Type := mkWitData {
  intents : option (list Intent);
  entities : option (gmap string (list Entity))
}.

(** [entities[key]] where [entities] may be [undefined]. *)
Definition entityList (ents : option (gmap string (list Entity))) (key : string)
  : completion (option (list Entity)) :=
  match ents with
  | None => Throw TypeError
  | Some m => Return (m !! key)
  end.

(** [xs?.[0]?.value]. *)
Definition firstValue (xs : option (list Entity)) : jsval :=
  match xs with
  | Some (e :: _) => value e
  | _ => JUndefined
  end.

(** [xs?.[0]?.values?.[0]?.value]. *)
Definition firstOfValues (xs : option (list Entity)) : jsval :=
  match xs with
  | Some (e :: _) =>
      match values e with
      | Some (i :: _) => itemValue i
      | _ => JUndefined
      end
  | _ => JUndefined
  end.

(** [entities[key]?.[0]?.value]. *)
Definition entValue (ents : option (gmap string (list Entity))) (key : string)
  : completion jsval :=
  match entityList ents key with
  | Throw e => Throw e
  | Return xs => Return (firstValue xs)
  end.

(** [entities[key]?.[0]?.values?.[0]?.value]. *)
Definition entValues0 (ents : option (gmap string (list Entity))) (key : string)
  : completion jsval :=
  match entityList ents key with
  | Throw e => Throw e
  | Return xs => Return (firstOfValues xs)
  end.

(** ** Statements that read and write the session *)

Definition M (A : Type) : Type := Session -> Session * completion A.

Definition ret {A : Type} (a : A) : M A := fun s => (s, Return a).

Definition bind {A B : Type} (m : M A) (k : A -> M B) : M B :=
  fun s =>
    match m s with
    | (s', Return a) => k a s'
    | (s', Throw e) => (s', Throw e)
    end.

Notation "x <- c ;; k" := (bind c (fun x => k))
  (at level 100, c at next level, right associativity).
Notation "c ;; k" := (bind c (fun _ => k))
  (at level 100, right associativity).

Definition getSession : M Session := fun s => (s, Return s).

(** An expression over the session: it reads, and may throw. *)
Definition evalExpr {A : Type} (e : Session -> completion A) : M A :=
  fun s => (s, e s).

Definition setHastane (v : jsval) : M unit :=
  fun s => ({| hastane := v; bolum := bolum s; datetime := datetime s |}, Return tt).

Definition setBolum (v : jsval) : M unit :=
  fun s => ({| hastane := hastane s; bolum := v; datetime := datetime s |}, Return tt).

Definition setDatetime (v : jsval) : M unit :=
  fun s => ({| hastane := hastane s; bolum := bolum s; datetime := v |}, Return tt).

Definition resetSession : M unit := fun s => (clearSession s, Return tt).

(** ** The entity merge, lines 103-117 *)

Definition hastaneExpr (ents : option (gmap string (list Entity))) (s : Session)
  : completion jsval :=
  Return (hastane s)
  ||| entValue ents "hastane:hastane"
  ||| entValue ents "hastane".

Definition bolumExpr (ents : option (gmap string (list Entity))) (s : Session)
  : completion jsval :=
  Return (bolum s)
  ||| entValue ents "bolum:bolum"
  ||| entValue ents "bolum".

Definition datetimeExpr (ents : option (gmap string (list Entity))) (s : Session)
  : completion jsval :=
  Return (datetime s)
  ||| entValue ents "wit$datetime:datetime"
  ||| entValue ents "wit$datetime"
  ||| entValue ents "wit/datetime:datetime"
  ||| entValues0 ents "wit/datetime:datetime"
  ||| entValue ents "wit/datetime"
  ||| entValues0 ents "wit/datetime".

Definition mergeEntities (ents : option (gmap string (list Entity))) : M unit :=
  h <- evalExpr (hastaneExpr ents) ;; setHastane h ;;
  b <- evalExpr (bolumExpr ents) ;; setBolum b ;;
  d <- evalExpr (datetimeExpr ents) ;; setDatetime d.

(** ** Replies *)

Definition cancelReply : string := "Randevu işlemi iptal edildi.".
Definition askHastane : string := "Hangi hastane için randevu almak istiyorsunuz?".
Definition askBolum : string := "Hangi bölüm için randevu almak istiyorsunuz?".
Definition askDatetime : string := "Hangi tarih ve saatte randevu almak istiyorsunuz?".
Definition successReply : string := "Randevunuz başarıyla oluşturuldu!".

(** The template literal of line 143. *)
Definition confirmationMessage (s : Session) : string :=
  "✅ Onay: " +:+ toStr (hastane s) +:+ " hastanesi, " +:+ toStr (bolum s)
  +:+ " bölümü için " +:+ toStr (datetime s)
  +:+ " tarihine randevu talebiniz alındı. Onaylıyor musunuz? (evet/hayır)".

Definition rateLimitReply : string :=
  "🤖 Üzgünüm, şu an çok fazla talep alıyorum. Lütfen biraz sonra tekrar deneyin (Kota Aşıldı).".
Definition invalidKeyReply : string :=
  "🤖 API anahtarımda bir sorun var. Lütfen geliştiriciye bildirin (Geçersiz API Anahtarı).".
Definition serviceErrorPrefix : string :=
  "🤖 Gemini ile iletişimde bir sorun oluştu: ".
Definition notUnderstoodReply : string :=
  "🤖 Anlayamadım, lütfen başka şekilde ifade edin.".
Definition connectionReply : string :=
  "🤖 Üzgünüm, şu anda Gemini ile bağlantı kuramıyorum. Lütfen internet bağlantınızı kontrol edin veya daha sonra tekrar deneyin.".
Definition turnFailedReply : string :=
  "Üzgünüm, bir sorun oluştu. Lütfen tekrar deneyin.".

(** ** The answer of the generative service *)

Record GeminiError : Type := mkGeminiError {
  code : option Z;
  message : jsval
}.

Record Part : Type := mkPart {
  partText : jsval
}.

Record Content : Type := mkContent {
  parts : option (list Part)
}.

Record Candidate : Type := mkCandidate {
  content : option Content
}.

Record GeminiData : Type := mkGeminiData {
  error : option GeminiError;
  candidates : option (list Candidate)
}.

(** [err.code === n]. *)
Definition codeIs (err : GeminiError) (n : Z) : bool :=
  match code err with
  | Some c => Z.eqb c n
  | None => false
  end.

(** [v.includes(needle)] on a property that may not be a string. *)
Definition includesV (v : jsval) (needle : string) : completion bool :=
  match v with
  | JStr s => Return (includes s needle)
  | JNull | JUndefined => Throw TypeError
  end.

(** The block of lines 70-79: [Some r] when it returns [r], [None] when it
    falls through to line 81. *)
Definition errorBlock (data : GeminiData) : completion (option string) :=
  match error data with
  | None => Return None
  | Some err =>
      if codeIs err 429 then Return (Some rateLimitReply)
      else
        match (if codeIs err 400 then includesV (message err) "API key not valid"
               else Return false) with
        | Throw e => Throw e
        | Return true => Return (Some invalidKeyReply)
        | Return false =>
            if truthy (message err)
            then Return (Some (serviceErrorPrefix +:+ toStr (message err)))
            else Return None
        end
  end.

(** [data.candidates?.[0]?.content?.parts?.[0]?.text]. *)
Definition firstCandidateText (data : GeminiData) : jsval :=
  match candidates data with
  | Some (c :: _) =>
      match content c with
      | Some ct =>
          match parts ct with
          | Some (p :: _) => partText p
          | _ => JUndefined
          end
      | None => JUndefined
      end
  | _ => JUndefined
  end.

(** [finalPrompt], line 52. *)
Definition finalPrompt (text context : string) : string :=
  if truthy (JStr context) then context +:+ newline +:+ text else text.

(** ** The flow decision *)

(** What [generateResponse] has decided when it reaches its only external
    call: a reply of its own, or the call [askGemini(text, context)]. *)
Inductive Step : Type :=
| Reply (r : string)
| CallGemini (text context : string).

Definition requiresRandevuKeyword : bool := true.

(** [witData.intents?.[0]]. *)
Definition topIntent (witData : WitData) : option Intent :=
  match intents witData with
  | Some (i :: _) => Some i
  | _ => None
  end.

(** [witData.intents?.[0]?.name]. *)
Definition intentOf (witData : WitData) : jsval :=
  match topIntent witData with
  | Some i => name i
  | None => JUndefined
  end.

(** [witData.intents?.[0]?.confidence || 0]. *)
Definition confidenceOf (witData : WitData) : float :=
  numOr0 (match topIntent witData with
          | Some i => confidence i
          | None => None
          end).

(** The condition of lines 134-136. *)
Definition flowCondition (text : string) (intent : jsval) (conf : float) (s : Session)
  : bool :=
  (requiresRandevuKeyword && includes text "randevu"
     && strictEqStr intent "randevu_al" && gt conf 0.7%float)
  || (negb requiresRandevuKeyword && strictEqStr intent "randevu_al" && gt conf 0.7%float)
  || truthy (hastane s) || truthy (bolum s) || truthy (datetime s).

(** The test of line 120. *)
Definition hasCancelKeyword (text : string) : bool :=
  includes text "iptal" || includes text "cancel".

(** [geminiContextForPrompt], lines 154-160. *)
Definition geminiContext (userMessage : string) (intent : jsval) (conf : float) : string :=
  let ctx := "Kullanıcının mesajı: " +:+ dquote +:+ userMessage +:+ dquote +:+ "." in
  let ctx :=
    if truthy intent && negb (strictEqStr intent "randevu_al") && gt conf 0.5%float
    then ctx +:+ " Wit.ai bunu " +:+ dquote +:+ toStr intent +:+ dquote
             +:+ " niyeti olarak algıladı."
    else ctx +:+ " Wit.ai belirli bir niyet belirleyemedi veya randevu akışına girilmedi." in
  ctx +:+ " Lütfen doğal ve sohbetvari bir şekilde yanıt verin.".

(** ** What the specification calls absent and filled *)

(** The code's own test, [!session.x]: a slot is absent when it is falsy. *)
Definition absent (v : jsval) : bool := negb (truthy v).

Definition allAbsent (s : Session) : bool :=
  absent (hastane s) && absent (bolum s) && absent (datetime s).

Definition allFilled (s : Session) : bool :=
  truthy (hastane s) && truthy (bolum s) && truthy (datetime s).

(** A slot as the data model of the specification has it: an optional,
    non-empty string. *)
Definition slotView (v : jsval) : option string :=
  if truthy v then Some (toStr v) else None.

Definition sessionView (s : Session) : option string * option string * option string :=
  (slotView (hastane s), slotView (bolum s), slotView (datetime s)).

(** The alias lists of the three slots, in the order of lines 104-117: what
    each alias yields on a given entity mapping. *)
Definition hastaneAliases (m : gmap string (list Entity)) : list jsval :=
  [ firstValue (m !! "hastane:hastane"); firstValue (m !! "hastane") ].

Definition bolumAliases (m : gmap string (list Entity)) : list jsval :=
  [ firstValue (m !! "bolum:bolum"); firstValue (m !! "bolum") ].

Definition datetimeAliases (m : gmap string (list Entity)) : list jsval :=
  [ firstValue (m !! "wit$datetime:datetime");
    firstValue (m !! "wit$datetime");
    firstValue (m !! "wit/datetime:datetime");
    firstOfValues (m !! "wit/datetime:datetime");
    firstValue (m !! "wit/datetime");
    firstOfValues (m !! "wit/datetime") ].

(** The rule in the words of the specification: the first alias that yields
    a non-empty value wins. *)
Definition firstNonEmpty (candidates : list jsval) : option jsval :=
  List.find truthy candidates.

(** The slot after the merge, by that rule: kept when populated, else the
    first non-empty alias value, else still absent. *)
Definition mergedSlotSpec (current : jsval) (candidates : list jsval) : option string :=
  if truthy current then Some (toStr current)
  else match firstNonEmpty candidates with
       | Some v => Some (toStr v)
       | None => None
       end.

(** The three slots by the names of the specification. *)
Inductive Slot : Type :=
| Facility
| Department
| DateTime.

Definition slot (k : Slot) (s : Session) : jsval :=
  match k with
  | Facility => hastane s
  | Department => bolum s
  | DateTime => datetime s
  end.

Definition aliases (k : Slot) (m : gmap string (list Entity)) : list jsval :=
  match k with
  | Facility => hastaneAliases m
  | Department => bolumAliases m
  | DateTime => datetimeAliases m
  end.

Definition question (k : Slot) : string :=
  match k with
  | Facility => askHastane
  | Department => askBolum
  | DateTime => askDatetime
  end.

(** The order of lines 139-141 in the words of the specification: the first
    slot, in the order facility, department, date/time, that is absent. *)
Definition firstMissing (s : Session) : option Slot :=
  if absent (hastane s) then Some Facility
  else if absent (bolum s) then Some Department
  else if absent (datetime s) then Some DateTime
  else None.

(** The value of [current || c1 || ... || cn]. *)
Definition orChain (current : jsval) (candidates : list jsval) : jsval :=
  fold_left jsOr candidates current.

(** The session the three assignments of lines 103-117 leave when the
    entity mapping is there. *)
Definition mergedSession (m : gmap string (list Entity)) (s : Session) : Session :=
  {| hastane := orChain (hastane s) (hastaneAliases m);
     bolum := orChain (bolum s) (bolumAliases m);
     datetime := orChain (datetime s) (datetimeAliases m) |}.

(** No alias of any slot yields a non-empty value. *)
Definition nothingExtracted (m : gmap string (list Entity)) : Prop :=
  forall k, firstNonEmpty (aliases k m) = None.

(** ** The program, over its environment *)

Section Program.

(** [String.prototype.toLowerCase]. *)
Variable toLowerCase : string -> string.

(** The generative service: how [(await fetch(url, {body})).json()] ends for
    a prompt; [Return None] is the JSON body [null]. *)
Variable fetchGemini : string -> completion (option GeminiData).

(** The classifier: how [askWit(text)] ends. *)
Variable askWit : string -> completion WitData.

(** The [try] block of [askGemini], lines 50-82. *)
Definition askGeminiTry (text context : string) : completion string :=
  match fetchGemini (finalPrompt text context) with
  | Throw e => Throw e
  | Return None => Throw TypeError (* [data.error] on [null] *)
  | Return (Some data) =>
      match errorBlock data with
      | Throw e => Throw e
      | Return (Some r) => Return r
      | Return None =>
          Return (toStr (jsOr (firstCandidateText data) (JStr notUnderstoodReply)))
      end
  end.

Definition askGemini (text context : string) : completion string :=
  tryCatch (askGeminiTry text context) (fun err => Return connectionReply).

(** Lines 96-160 of [generateResponse]: all it does before line 162. *)
Definition dialogue (witData : WitData) (userMessage : string) : M Step :=
  let text := toLowerCase userMessage in
  let intent := intentOf witData in
  let confidence := confidenceOf witData in
  let entities := entities witData in
  mergeEntities entities ;;
  if includes text "iptal" || includes text "cancel" then
    resetSession ;;
    ret (Reply cancelReply)
  else
    session <- getSession ;;
    if flowCondition text intent confidence session then
      if negb (truthy (hastane session)) then ret (Reply askHastane)
      else if negb (truthy (bolum session)) then ret (Reply askBolum)
      else if negb (truthy (datetime session)) then ret (Reply askDatetime)
      else
        let confirmation := confirmationMessage session in
        if negb (includes text "evet") then ret (Reply confirmation)
        else
          resetSession ;;
          ret (Reply successReply)
    else
      ret (CallGemini userMessage (geminiContext userMessage intent confidence)).

(** The branches of [dialogue] below the merge, read off as a function of
    the merged session [s']; [dialogue_after_merge] proves it is what
    [dialogue] computes. *)
Definition decision (witData : WitData) (userMessage : string) (s' : Session)
  : Session * completion Step :=
  let text := toLowerCase userMessage in
  if hasCancelKeyword text then (initialSession, Return (Reply cancelReply))
  else if flowCondition text (intentOf witData) (confidenceOf witData) s' then
    if negb (truthy (hastane s')) then (s', Return (Reply askHastane))
    else if negb (truthy (bolum s')) then (s', Return (Reply askBolum))
    else if negb (truthy (datetime s')) then (s', Return (Reply askDatetime))
    else if negb (includes text "evet")
      then (s', Return (Reply (confirmationMessage s')))
      else (initialSession, Return (Reply successReply))
  else
    (s', Return (CallGemini userMessage
                   (geminiContext userMessage (intentOf witData) (confidenceOf witData)))).

Definition generateResponse (witData : WitData) (userMessage : string) : M string :=
  step <- dialogue witData userMessage ;;
  match step with
  | Reply r => ret r
  | CallGemini text context => evalExpr (fun _ => askGemini text context)
  end.

(** The [try] block of a turn of [chatLoop], lines 182-187. *)
Definition chatTry (userInput : string) : M string :=
  witData <- evalExpr (fun _ => askWit userInput) ;;
  generateResponse witData userInput.

(** One turn of [chatLoop] for an input other than [exit], lines 181-191:
    the session it leaves and what the bot prints. *)
Definition chatTurn (userInput : string) (s : Session) : Session * string :=
  match chatTry userInput s with
  | (s', Return botResponse) => (s', botResponse)
  | (s', Throw err) => (s', turnFailedReply)
  end.

(** The decisions of a sequence of turns, each given with the classifier's
    answer. The session is threaded from turn to turn; after a turn that
    throws the loop goes on with the session as the throw left it. *)
Fixpoint runTurns (turns : list (WitData * string)) (s : Session)
  : Session * list (completion Step) :=
  match turns with
  | [] => (s, [])
  | (witData, userMessage) :: rest =>
      match dialogue witData userMessage s with
      | (s', r) =>
          let (s'', rs) := runTurns rest s' in
          (s'', r :: rs)
      end
  end.

End Program.


(** ** Data of the closed examples *)

Definition entityOf (v : string) : Entity := {| value := JStr v; values := None |}.

Definition bookingIntent (c : float) : option (list Intent) :=
  Some [ {| name := JStr "randevu_al"; confidence := Some c |} ].

Definition noEntities : gmap string (list Entity) := ∅.

Definition facilityEntities : gmap string (list Entity) :=
  {[ "hastane:hastane" := [ entityOf "Acıbadem" ] ]}.

Definition departmentEntities : gmap string (list Entity) :=
  {[ "bolum" := [ entityOf "kardiyoloji" ] ]}.

(** A date/time parse that carries its value only in [values]. *)
Definition datetimeEntities : gmap string (list Entity) :=
  {[ "wit/datetime:datetime" :=
       [ {| value := JUndefined;
            values := Some [ {| itemValue := JStr "2025-07-11T10:00" |} ] |} ] ]}.

Definition midFlowSession : Session :=
  {| hastane := JStr "Acıbadem"; bolum := JNull; datetime := JNull |}.

Definition filledSession : Session :=
  {| hastane := JStr "Acıbadem"; bolum := JStr "kardiyoloji";
     datetime := JStr "2025-07-11T10:00" |}.

(** The conversation of the specification's example, with one re-prompt. *)
Definition exampleConversation : list (WitData * string) :=
  [ ({| intents := bookingIntent 0.9; entities := Some noEntities |},
     "randevu almak istiyorum");
    ({| intents := Some []; entities := Some facilityEntities |}, "Acıbadem hastanesi");
    ({| intents := Some []; entities := Some departmentEntities |}, "kardiyoloji");
    ({| intents := Some []; entities := Some datetimeEntities |}, "yarın saat 10");
    ({| intents := Some []; entities := Some noEntities |}, "bir dakika");
    ({| intents := Some []; entities := Some noEntities |}, "evet") ].

Definition serviceDown : string -> completion (option GeminiData) :=
  fun _ => Throw (Error "fetch failed").

Definition serviceError (c : Z) (msg : string) : string -> completion (option GeminiData) :=
  fun _ => Return (Some {| error := Some {| code := Some c; message := JStr msg |};
                           candidates := None |}).

Definition serviceAnswer (t : string) : string -> completion (option GeminiData) :=
  fun _ => Return (Some {| error := None;
                           candidates := Some [ {| content := Some {| parts := Some [ {| partText := JStr t |} ] |} |} ] |}).

Definition classifierDown : string -> completion WitData :=
  fun _ => Throw (Error "Wit.ai Hatası: 500").

(** ** The adapters: the chat loop and the HTTP endpoint *)

(** [req.body.message] as the handler of [server.js] can find it: missing
    or another falsy value that is not a string ([null], [false], [0]); a
    string; or a truthy value that is not a string ([true], a non-zero
    number, an array, an object), kept with the string a template literal
    turns it into. *)
Inductive BodyMessage : Type :=
| NoMessage
| TextMessage (s : string)
| OtherMessage (asString : string).

(** [!userMessage] is false. *)
Definition messageTruthy (message : BodyMessage) : bool :=
  match message with
  | NoMessage => false
  | TextMessage s => truthy (JStr s)
  | OtherMessage _ => true
  end.

(** The text [askWit] sends for a truthy message. *)
Definition messageText (message : BodyMessage) : string :=
  match message with
  | NoMessage => "undefined"
  | TextMessage s => s
  | OtherMessage asString => asString
  end.

(** What [res.json] sends: [{ reply }] or [{ error }]. *)
Inductive ResponseBody : Type :=
| ReplyBody (r : string)
| ErrorBody (e : string).

Record HttpResponse : Type := mkHttpResponse {
  statusCode : nat;
  responseBody : ResponseBody
}.

Definition farewellLine : string := "Bot: Görüşmek üzere!".

(** What happens in the process of [server.js], which imports [witTest.js]
    and so runs its chat loop too: a line arrives on standard input, or a
    request arrives at [POST /chat]. *)
Inductive Event : Type :=
| StdinLine (userInput : string)
| ChatRequest (message : BodyMessage).

Inductive Output : Type :=
| Printed (line : string)
| Responded (r : HttpResponse).

Definition eventText (ev : Event) : string :=
  match ev with
  | StdinLine userInput => userInput
  | ChatRequest message => messageText message
  end.

(** An event that is processed as a turn: a line that is not [exit], or a
    request whose message is a non-empty string. *)
Definition turnEvent (toLowerCase : string -> string) (ev : Event) : Prop :=
  match ev with
  | StdinLine userInput => toLowerCase userInput <> "exit"
  | ChatRequest message => exists t, message = TextMessage t /\ t <> ""
  end.

(** The requests among the events. *)
Definition requestsOf (events : list Event) : list Event :=
  List.filter (fun ev => match ev with ChatRequest _ => true | StdinLine _ => false end)
    events.

Section Adapters.

Variable toLowerCase : string -> string.
Variable fetchGemini : string -> completion (option GeminiData).
Variable askWit : string -> completion WitData.

(** [generateResponse(witData, userMessage)] for a [userMessage] that need
    not be a string: [userMessage.toLowerCase] on line 96 is not a function
    then, and the call throws before it reads or writes the session. *)
Definition generateResponseOf (witData : WitData) (message : BodyMessage) : M string :=
  match message with
  | TextMessage userMessage => generateResponse toLowerCase fetchGemini witData userMessage
  | NoMessage | OtherMessage _ => fun s => (s, Throw TypeError)
  end.

(** The handler of [POST /chat], [server.js] lines 12-27, for a request
    whose body was parsed to an object. *)
Definition postChat (message : BodyMessage) (s : Session) : Session * HttpResponse :=
  let userMessage := message in
  if negb (messageTruthy userMessage) then
    (s, {| statusCode := 400; responseBody := ErrorBody "message alanı zorunludur" |})
  else
    match (witData <- evalExpr (fun _ => askWit (messageText userMessage)) ;;
           generateResponseOf witData userMessage) s with
    | (s', Return botResponse) =>
        (s', {| statusCode := 200; responseBody := ReplyBody botResponse |})
    | (s', Throw err) =>
        (s', {| statusCode := 500; responseBody := ErrorBody "Sunucu hatası" |})
    end.

(** [chatLoop], lines 174-195: the session it leaves and the lines it
    writes with [console.log]. The question of line 175 takes one line and
    is asked again only on line 193, after the turn has awaited its
    services; a line that arrives in between finds no question pending and
    is lost. So standard input is read in rounds: the line that answers the
    pending question, then the lines that arrive while its turn is still
    running, which are never read. *)
Fixpoint chatLoop (rounds : list (string * list string)) (s : Session)
  : Session * list string :=
  match rounds with
  | [] => (s, [])
  | (userInput, _) :: rest =>
      if String.eqb (toLowerCase userInput) "exit" then (s, [farewellLine])
      else
        let (s', botResponse) := chatTurn toLowerCase fetchGemini askWit userInput s in
        let (s'', out) := chatLoop rest s' in
        (s'', ("Bot: " +:+ botResponse) :: out)
  end.

(** The process of [server.js]: lines and requests, one at a time, on the
    one [session] object of [witTest.js]. After [exit] the readline
    interface is closed and lines are no longer read; requests still are. *)
Fixpoint serverProcess (events : list Event) (cliOpen : bool) (s : Session)
  : Session * list Output :=
  match events with
  | [] => (s, [])
  | StdinLine userInput :: rest =>
      if negb cliOpen then serverProcess rest cliOpen s
      else if String.eqb (toLowerCase userInput) "exit" then
        let (s', out) := serverProcess rest false s in
        (s', Printed farewellLine :: out)
      else
        let (s', botResponse) := chatTurn toLowerCase fetchGemini askWit userInput s in
        let (s'', out) := serverProcess rest cliOpen s' in
        (s'', Printed ("Bot: " +:+ botResponse) :: out)
  | ChatRequest message :: rest =>
      let (s', response) := postChat message s in
      let (s'', out) := serverProcess rest cliOpen s' in
      (s'', Responded response :: out)
  end.

End Adapters.

(** ** The classifier call, [askWit], lines 27-39 *)

(** The characters [encodeURIComponent] leaves as they are: letters, digits
    and the nine marks [- _ . ! ~ * ' ( )]. *)
Definition isUnreserved (c : Ascii.ascii) : bool :=
  let n := Ascii.nat_of_ascii c in
  ((65 <=? n)%nat && (n <=? 90)%nat)
  || ((97 <=? n)%nat && (n <=? 122)%nat)
  || ((48 <=? n)%nat && (n <=? 57)%nat)
  || existsb (Nat.eqb n) [45; 95; 46; 33; 126; 42; 39; 40; 41]%nat.

Definition percentSign : Ascii.ascii := Ascii.ascii_of_nat 37.

(** An upper-case hexadecimal digit. *)
Definition hexDigit (n : nat) : Ascii.ascii :=
  if (n <? 10)%nat then Ascii.ascii_of_nat (48 + n) else Ascii.ascii_of_nat (55 + n).

Definition percentEncode (c : Ascii.ascii) : string :=
  let n := Ascii.nat_of_ascii c in
  String percentSign (String (hexDigit (n / 16)) (String (hexDigit (n mod 16)) EmptyString)).

(** [encodeURIComponent] on the UTF-8 bytes of a text, which is how the
    built-in encodes a well-formed string: every byte that is not an
    unreserved character becomes [%XX]. *)
Fixpoint encodeURIComponent (s : string) : string :=
  match s with
  | EmptyString => EmptyString
  | String c s' =>
      (if isUnreserved c then String c EmptyString else percentEncode c)
      +:+ encodeURIComponent s'
  end.

Definition witApiVersion : string := "20250710".

(** The URL of line 30. *)
Definition witUrl (text : string) : string :=
  "https://api.wit.ai/message?v=" +:+ witApiVersion +:+ "&q=" +:+ encodeURIComponent text.

(** A number in a template literal. *)
Definition showNat (n : nat) : string :=
  DecimalString.NilEmpty.string_of_uint (Nat.to_uint n).

(** The response of [fetch]: [res.ok], [res.status], [res.statusText], and
    how [res.text()] and [res.json()] end. *)
Record WitResponse : Type := mkWitResponse {
  ok : bool;
  status : nat;
  statusText : string;
  responseText : completion string;
  responseJson : completion WitData
}.

Section Classifier.

Variable WIT_TOKEN : string.

(** [fetch(url, { headers: { Authorization } })]. *)
Variable fetchWit : string -> string -> completion WitResponse.

Definition askWit (text : string) : completion WitData :=
  let url := witUrl text in
  match fetchWit url ("Bearer " +:+ WIT_TOKEN) with
  | Throw e => Throw e
  | Return res =>
      if negb (ok res) then
        match responseText res with
        | Throw e => Throw e
        | Return errorText =>
            Throw (Error ("Wit.ai Hatası: " +:+ showNat (status res) +:+ " - "
                          +:+ statusText res +:+ " - Detay: " +:+ errorText))
        end
      else responseJson res
  end.

End Classifier.

(** A classifier service that answers every request with the same response. *)
Definition witAnswers (res : WitResponse) : string -> string -> completion WitResponse :=
  fun _ _ => Return res.

Definition rejectedResponse : WitResponse :=
  {| ok := false; status := 401; statusText := "Unauthorized";
     responseText := Return "Bad auth, check token/params";
     responseJson := Return {| intents := bookingIntent 0.9; entities := Some noEntities |} |}.

(** * Properties *)

(** ** Values and [||] chains *)

Lemma orElse_Return (a b : jsval) : Return a ||| Return b = Return (jsOr a b).
Proof. unfold orElse, jsOr. destruct (truthy a); reflexivity. Qed.

Lemma jsOr_truthy_l (a b : jsval) : truthy a = true -> jsOr a b = a.
Proof. intros H. unfold jsOr. rewrite H. reflexivity. Qed.

Lemma jsOr_falsy_l (a b : jsval) : truthy a = false -> jsOr a b = b.
Proof. intros H. unfold jsOr. rewrite H. reflexivity. Qed.

Lemma orChain_truthy (current : jsval) (candidates : list jsval) :
  truthy current = true -> orChain current candidates = current.
Proof.
  unfold orChain. induction candidates as [|c cs IH]; intros H; simpl.
  - reflexivity.
  - rewrite (jsOr_truthy_l _ _ H). apply IH, H.
Qed.

Lemma orChain_cons_falsy (current c : jsval) (cs : list jsval) :
  truthy current = false -> orChain current (c :: cs) = orChain c cs.
Proof. intros H. unfold orChain. simpl. rewrite (jsOr_falsy_l _ _ H). reflexivity. Qed.

Lemma orChain_find (current v : jsval) (candidates : list jsval) :
  truthy current = false ->
  firstNonEmpty candidates = Some v ->
  orChain current candidates = v.
Proof.
  unfold firstNonEmpty. revert current.
  induction candidates as [|c cs IH]; intros current Hcur Hfind; simpl in Hfind.
  - discriminate.
  - rewrite (orChain_cons_falsy _ _ _ Hcur).
    destruct (truthy c) eqn:Hc.
    + injection Hfind as <-. apply orChain_truthy, Hc.
    + destruct cs as [|c' cs'].
      * simpl in Hfind. discriminate.
      * apply IH; assumption.
Qed.

Lemma orChain_none (current : jsval) (candidates : list jsval) :
  truthy current = false ->
  firstNonEmpty candidates = None ->
  truthy (orChain current candidates) = false.
Proof.
  unfold firstNonEmpty. revert current.
  induction candidates as [|c cs IH]; intros current Hcur Hfind; simpl in Hfind.
  - exact Hcur.
  - destruct (truthy c) eqn:Hc; [discriminate|].
    rewrite (orChain_cons_falsy _ _ _ Hcur). apply IH; assumption.
Qed.

Lemma truthy_orChain_inv (current : jsval) (candidates : list jsval) :
  truthy (orChain current candidates) = false ->
  truthy current = false /\ firstNonEmpty candidates = None.
Proof.
  intros H. destruct (truthy current) eqn:Hcur.
  - rewrite (orChain_truthy _ _ Hcur) in H. congruence.
  - split; [reflexivity|].
    destruct (firstNonEmpty candidates) as [v|] eqn:Hf; [|reflexivity].
    rewrite (orChain_find _ _ _ Hcur Hf) in H.
    apply find_some in Hf. destruct Hf as [_ Hv]. congruence.
Qed.

Lemma slotView_orChain (current : jsval) (candidates : list jsval) :
  slotView (orChain current candidates) = mergedSlotSpec current candidates.
Proof.
  unfold mergedSlotSpec, slotView. destruct (truthy current) eqn:Hcur.
  - rewrite (orChain_truthy _ _ Hcur), Hcur. reflexivity.
  - destruct (firstNonEmpty candidates) as [v|] eqn:Hf.
    + rewrite (orChain_find _ _ _ Hcur Hf).
      apply find_some in Hf. destruct Hf as [_ ->]. reflexivity.
    + rewrite (orChain_none _ _ Hcur Hf). reflexivity.
Qed.

Lemma slotView_falsy (v : jsval) : truthy v = false -> slotView v = None.
Proof. intros H. unfold slotView. rewrite H. reflexivity. Qed.

(** ** The entity merge *)

Lemma mergeEntities_Some (m : gmap string (list Entity)) (s : Session) :
  mergeEntities (Some m) s = (mergedSession m s, Return tt).
Proof.
  unfold mergeEntities, bind, evalExpr, setHastane, setBolum, setDatetime.
  unfold hastaneExpr, bolumExpr, datetimeExpr, entValue, entValues0, entityList.
  rewrite !orElse_Return. reflexivity.
Qed.

Lemma session_eta (s : Session) :
  {| hastane := hastane s; bolum := bolum s; datetime := datetime s |} = s.
Proof. destruct s; reflexivity. Qed.

Lemma mergeEntities_None (s : Session) :
  mergeEntities None s = (s, if allFilled s then Return tt else Throw TypeError).
Proof.
  unfold mergeEntities, bind, evalExpr, setHastane, setBolum, setDatetime, allFilled.
  unfold hastaneExpr, bolumExpr, datetimeExpr, entValue, entValues0, entityList, orElse.
  destruct s as [h b d]; simpl.
  destruct h as [| |[|? ?]], b as [| |[|? ?]], d as [| |[|? ?]]; reflexivity.
Qed.

Lemma mergedSession_filled (m : gmap string (list Entity)) (s : Session) :
  allFilled s = true -> mergedSession m s = s.
Proof.
  unfold allFilled, mergedSession. intros H.
  apply andb_prop in H as [H Hd]. apply andb_prop in H as [Hh Hb].
  rewrite !orChain_truthy by assumption. apply session_eta.
Qed.

Lemma mergeEntities_filled (ents : option (gmap string (list Entity))) (s : Session) :
  allFilled s = true -> mergeEntities ents s = (s, Return tt).
Proof.
  intros H. destruct ents as [m|].
  - rewrite mergeEntities_Some, (mergedSession_filled _ _ H). reflexivity.
  - rewrite mergeEntities_None, H. reflexivity.
Qed.

Lemma slot_mergedSession (k : Slot) (m : gmap string (list Entity)) (s : Session) :
  slot k (mergedSession m s) = orChain (slot k s) (aliases k m).
Proof. destruct k; reflexivity. Qed.

(** The merge looks at a slot's old value only through its truthiness:
    sessions whose slots are all falsy merge to the same session. *)
Lemma mergedSession_absent_irrelevant (m : gmap string (list Entity)) (s1 s2 : Session) :
  allAbsent s1 = true -> allAbsent s2 = true -> mergedSession m s1 = mergedSession m s2.
Proof.
  unfold allAbsent, absent. intros H1 H2.
  apply andb_prop in H1 as [H1 Hd1]. apply andb_prop in H1 as [Hh1 Hb1].
  apply andb_prop in H2 as [H2 Hd2]. apply andb_prop in H2 as [Hh2 Hb2].
  apply negb_true_iff in Hh1, Hb1, Hd1, Hh2, Hb2, Hd2.
  unfold mergedSession, hastaneAliases, bolumAliases, datetimeAliases.
  rewrite (orChain_cons_falsy _ _ _ Hh1), (orChain_cons_falsy _ _ _ Hb1),
    (orChain_cons_falsy _ _ _ Hd1), (orChain_cons_falsy _ _ _ Hh2),
    (orChain_cons_falsy _ _ _ Hb2), (orChain_cons_falsy _ _ _ Hd2).
  reflexivity.
Qed.

(** ** The decisions of [dialogue] *)

Section Decisions.

Variable toLowerCase : string -> string.

Lemma dialogue_after_merge (witData : WitData) (userMessage : string) (s s' : Session) :
  mergeEntities (entities witData) s = (s', Return tt) ->
  dialogue toLowerCase witData userMessage s = decision toLowerCase witData userMessage s'.
Proof.
  intros Hm. unfold dialogue, decision, hasCancelKeyword, bind at 1. rewrite Hm.
  destruct (includes (toLowerCase userMessage) "iptal" || includes (toLowerCase userMessage) "cancel").
  - reflexivity.
  - unfold bind, getSession, ret, resetSession.
    destruct (flowCondition _ _ _ s'); [|reflexivity].
    destruct (truthy (hastane s')); simpl; [|reflexivity].
    destruct (truthy (bolum s')); simpl; [|reflexivity].
    destruct (truthy (datetime s')); simpl; [|reflexivity].
    destruct (includes (toLowerCase userMessage) "evet"); reflexivity.
Qed.

Lemma dialogue_with_entities (its : option (list Intent)) (m : gmap string (list Entity))
    (userMessage : string) (s : Session) :
  dialogue toLowerCase {| intents := its; entities := Some m |} userMessage s
  = decision toLowerCase {| intents := its; entities := Some m |} userMessage
      (mergedSession m s).
Proof. apply dialogue_after_merge. simpl. apply mergeEntities_Some. Qed.

Lemma dialogue_filled (witData : WitData) (userMessage : string) (s : Session) :
  allFilled s = true ->
  dialogue toLowerCase witData userMessage s = decision toLowerCase witData userMessage s.
Proof. intros H. apply dialogue_after_merge, mergeEntities_filled, H. Qed.

Lemma dialogue_without_entities (its : option (list Intent)) (userMessage : string)
    (s : Session) :
  allFilled s = false ->
  dialogue toLowerCase {| intents := its; entities := None |} userMessage s
  = (s, Throw TypeError).
Proof.
  intros H. unfold dialogue, bind at 1. simpl.
  rewrite mergeEntities_None, H. reflexivity.
Qed.

End Decisions.

Lemma allAbsent_merged (m : gmap string (list Entity)) (s : Session) :
  allAbsent s = true -> nothingExtracted m -> allAbsent (mergedSession m s) = true.
Proof.
  unfold allAbsent, absent. intros H Hm.
  apply andb_prop in H as [H Hd]. apply andb_prop in H as [Hh Hb].
  apply negb_true_iff in Hh, Hb, Hd.
  pose proof (orChain_none _ _ Hh (Hm Facility)) as H1.
  pose proof (orChain_none _ _ Hb (Hm Department)) as H2.
  pose proof (orChain_none _ _ Hd (Hm DateTime)) as H3.
  change (negb (truthy (orChain (hastane s) (aliases Facility m)))
          && negb (truthy (orChain (bolum s) (aliases Department m)))
          && negb (truthy (orChain (datetime s) (aliases DateTime m))) = true).
  rewrite H1, H2, H3. reflexivity.
Qed.

Lemma allAbsent_merged_inv (m : gmap string (list Entity)) (s : Session) :
  allAbsent (mergedSession m s) = true -> allAbsent s = true /\ nothingExtracted m.
Proof.
  unfold allAbsent, absent. intros H.
  apply andb_prop in H as [H Hd]. apply andb_prop in H as [Hh Hb].
  apply negb_true_iff in Hh, Hb, Hd.
  apply (truthy_orChain_inv (hastane s) (hastaneAliases m)) in Hh as [Hh Hh'].
  apply (truthy_orChain_inv (bolum s) (bolumAliases m)) in Hb as [Hb Hb'].
  apply (truthy_orChain_inv (datetime s) (datetimeAliases m)) in Hd as [Hd Hd'].
  split.
  - rewrite Hh, Hb, Hd. reflexivity.
  - intros []; assumption.
Qed.

Lemma flowCondition_absent (text : string) (intent : jsval) (conf : float) (s : Session) :
  allAbsent s = true ->
  flowCondition text intent conf s
  = includes text "randevu" && strictEqStr intent "randevu_al" && gt conf 0.7%float.
Proof.
  unfold allAbsent, absent, flowCondition, requiresRandevuKeyword. intros H.
  apply andb_prop in H as [H Hd]. apply andb_prop in H as [Hh Hb].
  apply negb_true_iff in Hh, Hb, Hd. rewrite Hh, Hb, Hd. simpl.
  rewrite !orb_false_r. reflexivity.
Qed.

Lemma flowCondition_filled (text : string) (intent : jsval) (conf : float) (s : Session)
    (k : Slot) :
  truthy (slot k s) = true -> flowCondition text intent conf s = true.
Proof.
  unfold flowCondition. intros H.
  destruct k; simpl in H; rewrite H; rewrite ?orb_true_r; reflexivity.
Qed.

(** ** [askGemini] and [generateResponse] around [dialogue] *)

Lemma askGemini_returns (fetchGemini : string -> completion (option GeminiData))
    (text context : string) :
  exists r, askGemini fetchGemini text context = Return r.
Proof.
  unfold askGemini, tryCatch.
  destruct (askGeminiTry fetchGemini text context) as [e|r]; eauto.
Qed.

Section Around.

Variable toLowerCase : string -> string.
Variable fetchGemini : string -> completion (option GeminiData).

Lemma generateResponse_Reply (witData : WitData) (userMessage r : string) (s s' : Session) :
  dialogue toLowerCase witData userMessage s = (s', Return (Reply r)) ->
  generateResponse toLowerCase fetchGemini witData userMessage s = (s', Return r).
Proof. intros H. unfold generateResponse, bind. rewrite H. reflexivity. Qed.

Lemma generateResponse_CallGemini (witData : WitData) (userMessage text context : string)
    (s s' : Session) :
  dialogue toLowerCase witData userMessage s = (s', Return (CallGemini text context)) ->
  generateResponse toLowerCase fetchGemini witData userMessage s
  = (s', askGemini fetchGemini text context).
Proof. intros H. unfold generateResponse, bind. rewrite H. reflexivity. Qed.

Lemma generateResponse_Throw (witData : WitData) (userMessage : string) (e : jsError)
    (s s' : Session) :
  dialogue toLowerCase witData userMessage s = (s', Throw e) ->
  generateResponse toLowerCase fetchGemini witData userMessage s = (s', Throw e).
Proof. intros H. unfold generateResponse, bind. rewrite H. reflexivity. Qed.

Lemma decision_returns (witData : WitData) (userMessage : string) (s' : Session) :
  exists s'' step, decision toLowerCase witData userMessage s' = (s'', Return step).
Proof.
  unfold decision.
  repeat match goal with |- context [if ?b then _ else _] => destruct b end; eauto.
Qed.

(** X1: with an entity mapping in the classifier's answer,
    [generateResponse] returns a reply, whatever the session, the intents,
    the message and the generative service: nothing in it throws. *)
Lemma generateResponse_returns_with_entities (its : option (list Intent))
    (m : gmap string (list Entity)) (userMessage : string) (s : Session) :
  exists s' r,
    generateResponse toLowerCase fetchGemini {| intents := its; entities := Some m |}
      userMessage s = (s', Return r).
Proof.
  destruct (decision_returns {| intents := its; entities := Some m |} userMessage
              (mergedSession m s)) as (s' & step & Hd).
  rewrite <- dialogue_with_entities in Hd. destruct step as [r|t c].
  - exists s', r. apply generateResponse_Reply, Hd.
  - destruct (askGemini_returns fetchGemini t c) as [r Hr].
    exists s', r. rewrite (generateResponse_CallGemini _ _ _ _ _ _ Hd), Hr. reflexivity.
Qed.

End Around.

(** ** Errors of the dialogue manager *)

(** C1, as the code behaves: on the first turn of a conversation (every
    slot still [null]), a classifier answer without the [entities] property
    makes [generateResponse] throw a [TypeError], whatever the message and
    the intents; the session stays as it was. The claim says no error is
    raised in that case. *)
Theorem generateResponse_throws_without_entities
    (toLowerCase : string -> string)
    (fetchGemini : string -> completion (option GeminiData))
    (its : option (list Intent)) (userMessage : string) :
  generateResponse toLowerCase fetchGemini {| intents := its; entities := None |}
    userMessage initialSession
  = (initialSession, Throw TypeError).
Proof.
  apply generateResponse_Throw, dialogue_without_entities. reflexivity.
Qed.

(** ** Cancellation *)

(** X18: whatever the session, for every classifier answer that carries an
    entity mapping, a message whose lower-cased text contains [iptal] or
    [cancel] leaves all three slots [null] and is answered by the fixed
    cancellation reply; the decision is a reply of the manager itself, so
    neither the flow nor the generative service is reached, whatever that
    service would have answered. *)
Theorem cancellation_resets_session
    (toLowerCase : string -> string)
    (fetchGemini : string -> completion (option GeminiData))
    (its : option (list Intent)) (m : gmap string (list Entity))
    (userMessage : string) (s : Session) :
  hasCancelKeyword (toLowerCase userMessage) = true ->
  dialogue toLowerCase {| intents := its; entities := Some m |} userMessage s
  = (initialSession, Return (Reply cancelReply))
  /\ generateResponse toLowerCase fetchGemini {| intents := its; entities := Some m |}
       userMessage s
     = (initialSession, Return cancelReply)
  /\ allAbsent initialSession = true.
Proof.
  intros Hc.
  assert (Hd : dialogue toLowerCase {| intents := its; entities := Some m |} userMessage s
               = (initialSession, Return (Reply cancelReply))).
  { rewrite dialogue_with_entities. unfold decision. rewrite Hc. reflexivity. }
  split; [exact Hd|]. split; [|reflexivity].
  apply generateResponse_Reply, Hd.
Qed.

Lemma cancellation_resets_session_witness :
  hasCancelKeyword (asciiToLowerCase "Lutfen IPTAL et") = true
  /\ dialogue asciiToLowerCase
       {| intents := bookingIntent 0.9; entities := Some departmentEntities |}
       "Lutfen IPTAL et" midFlowSession
     = (initialSession, Return (Reply cancelReply)).
Proof.
  split; [reflexivity|].
  apply (cancellation_resets_session asciiToLowerCase serviceDown (bookingIntent 0.9)
           departmentEntities "Lutfen IPTAL et" midFlowSession).
  reflexivity.
Defined.

(** C2, as the code behaves: the merge of lines 103-117 runs before the
    cancellation test of line 120. When the classifier's answer has no
    [entities] property and some slot is still absent, the merge throws a
    [TypeError] although the message holds a cancellation keyword: no
    cancellation reply is returned and the slots that were filled stay
    filled. The claim says that the slots are cleared and the cancellation
    reply returned for every classifier answer. *)
Theorem cancellation_throws_without_entities
    (toLowerCase : string -> string)
    (fetchGemini : string -> completion (option GeminiData))
    (its : option (list Intent)) (userMessage : string) (s : Session) :
  hasCancelKeyword (toLowerCase userMessage) = true ->
  allFilled s = false ->
  generateResponse toLowerCase fetchGemini {| intents := its; entities := None |}
    userMessage s
  = (s, Throw TypeError).
Proof.
  intros _ Hs. apply generateResponse_Throw.
  apply dialogue_without_entities. exact Hs.
Qed.

Lemma cancellation_throws_without_entities_witness :
  hasCancelKeyword (asciiToLowerCase "Lutfen IPTAL et") = true
  /\ generateResponse asciiToLowerCase serviceDown
       {| intents := Some []; entities := None |} "Lutfen IPTAL et" midFlowSession
     = (midFlowSession, Throw TypeError).
Proof.
  split; [reflexivity|].
  apply (cancellation_throws_without_entities asciiToLowerCase serviceDown (Some [])
           "Lutfen IPTAL et" midFlowSession); reflexivity.
Defined.

(** ** Entering the flow *)

Lemma confidence_boundary_values :
  gt (numOr0 (Some 0.71%float)) 0.7%float = true
  /\ gt (numOr0 (Some 0.7%float)) 0.7%float = false.
Proof. split; vm_compute; reflexivity. Qed.

(** C3: the message contains [randevu] and no cancellation keyword, the top
    intent is [randevu_al], every slot is absent and no alias yields a value
    this turn. Then the turn enters the flow (and asks for the facility)
    exactly when the confidence, as line 98 reads it, is greater than 0.7,
    and goes to the generative fallback otherwise; with confidence 0.71 it
    enters, with confidence exactly 0.7 it falls back. *)
Theorem flow_entry_confidence_boundary
    (toLowerCase : string -> string)
    (c : option float) (rest : list Intent) (m : gmap string (list Entity))
    (userMessage : string) (s : Session) :
  let witData (c : option float) :=
    {| intents := Some ({| name := JStr "randevu_al"; confidence := c |} :: rest);
       entities := Some m |} in
  let fallback (c : option float) :=
    CallGemini userMessage
      (geminiContext userMessage (JStr "randevu_al") (confidenceOf (witData c))) in
  includes (toLowerCase userMessage) "randevu" = true ->
  hasCancelKeyword (toLowerCase userMessage) = false ->
  allAbsent s = true ->
  nothingExtracted m ->
  dialogue toLowerCase (witData c) userMessage s
  = (mergedSession m s,
     Return (if gt (confidenceOf (witData c)) 0.7%float then Reply askHastane
             else fallback c))
  /\ dialogue toLowerCase (witData (Some 0.71%float)) userMessage s
     = (mergedSession m s, Return (Reply askHastane))
  /\ dialogue toLowerCase (witData (Some 0.7%float)) userMessage s
     = (mergedSession m s, Return (fallback (Some 0.7%float))).
Proof.
  intros witData fallback Hk Hc Hs Hm.
  assert (Hgen : forall c',
    dialogue toLowerCase (witData c') userMessage s
    = (mergedSession m s,
       Return (if gt (confidenceOf (witData c')) 0.7%float then Reply askHastane
               else fallback c'))).
  { intros c'. unfold witData. rewrite dialogue_with_entities. unfold decision.
    pose proof (allAbsent_merged m s Hs Hm) as Ha.
    rewrite Hc, (flowCondition_absent _ _ _ _ Ha), Hk.
    change (intentOf _) with (JStr "randevu_al").
    change (strictEqStr (JStr "randevu_al") "randevu_al") with true.
    cbn [andb].
    destruct (gt (confidenceOf _) 0.7%float) eqn:Hg.
    - unfold allAbsent, absent in Ha.
      apply andb_prop in Ha as [Ha _]. apply andb_prop in Ha as [Ha _].
      rewrite Ha. reflexivity.
    - reflexivity. }
  destruct confidence_boundary_values as [Hin Hout].
  split; [apply Hgen|]. split.
  - rewrite Hgen.
    change (confidenceOf (witData (Some 0.71%float))) with (numOr0 (Some 0.71%float)).
    rewrite Hin. reflexivity.
  - rewrite Hgen.
    change (confidenceOf (witData (Some 0.7%float))) with (numOr0 (Some 0.7%float)).
    rewrite Hout. reflexivity.
Qed.

Lemma nothingExtracted_noEntities : nothingExtracted noEntities.
Proof. intros []; reflexivity. Qed.

Lemma flow_entry_confidence_boundary_witness :
  dialogue asciiToLowerCase
    {| intents := bookingIntent 0.71; entities := Some noEntities |}
    "Randevu almak istiyorum" initialSession
  = (mergedSession noEntities initialSession, Return (Reply askHastane))
  /\ dialogue asciiToLowerCase
       {| intents := bookingIntent 0.7; entities := Some noEntities |}
       "Randevu almak istiyorum" initialSession
     = (mergedSession noEntities initialSession,
        Return (CallGemini "Randevu almak istiyorum"
                  (geminiContext "Randevu almak istiyorum" (JStr "randevu_al") 0.7%float))).
Proof.
  apply (flow_entry_confidence_boundary asciiToLowerCase None [] noEntities
           "Randevu almak istiyorum" initialSession).
  - reflexivity.
  - reflexivity.
  - reflexivity.
  - exact nothingExtracted_noEntities.
Defined.

(** ** First write wins *)

Lemma decision_session (toLowerCase : string -> string) (witData : WitData)
    (userMessage : string) (s' : Session) :
  let text := toLowerCase userMessage in
  (decision toLowerCase witData userMessage s').1 = s'
  \/ ((decision toLowerCase witData userMessage s').1 = initialSession
      /\ (hasCancelKeyword text = true
          \/ (hasCancelKeyword text = false /\ includes text "evet" = true
              /\ allFilled s' = true))).
Proof.
  unfold decision, allFilled. simpl.
  destruct (hasCancelKeyword (toLowerCase userMessage)); [right; split; auto|].
  destruct (flowCondition _ _ _ s'); [|left; reflexivity].
  destruct (truthy (hastane s')); simpl; [|left; reflexivity].
  destruct (truthy (bolum s')); simpl; [|left; reflexivity].
  destruct (truthy (datetime s')); simpl; [|left; reflexivity].
  destruct (includes (toLowerCase userMessage) "evet"); simpl.
  - right. split; [reflexivity|]. right. auto.
  - left. reflexivity.
Qed.

Lemma merge_keeps_filled (ents : option (gmap string (list Entity))) (s : Session)
    (k : Slot) :
  truthy (slot k s) = true -> slot k (mergeEntities ents s).1 = slot k s.
Proof.
  intros H. destruct ents as [m|].
  - rewrite mergeEntities_Some. simpl. rewrite slot_mergedSession.
    apply orChain_truthy, H.
  - rewrite mergeEntities_None. reflexivity.
Qed.

(** C4: the merge of lines 103-117, slot by slot. A slot that is populated
    on entry keeps its value; a slot that is absent takes the value of the
    first alias of its list that yields a non-empty value, and stays absent
    when none does; as an optional string the merged slot is what the rule
    of the specification gives. Over a whole turn a populated slot becomes
    absent only by the two resets: the cancellation keyword, or [evet] with
    all three slots filled. *)
Theorem merge_first_write_wins
    (m : gmap string (list Entity)) (s : Session) (k : Slot) :
  let s' := mergedSession m s in
  mergeEntities (Some m) s = (s', Return tt)
  /\ (truthy (slot k s) = true -> slot k s' = slot k s)
  /\ (absent (slot k s) = true ->
      forall v, firstNonEmpty (aliases k m) = Some v -> slot k s' = v)
  /\ (absent (slot k s) = true ->
      firstNonEmpty (aliases k m) = None -> absent (slot k s') = true)
  /\ slotView (slot k s') = mergedSlotSpec (slot k s) (aliases k m)
  /\ (forall (toLowerCase : string -> string) (witData : WitData) (userMessage : string),
        let text := toLowerCase userMessage in
        truthy (slot k s) = true ->
        absent (slot k (dialogue toLowerCase witData userMessage s).1) = true ->
        hasCancelKeyword text = true
        \/ (hasCancelKeyword text = false /\ includes text "evet" = true
            /\ allFilled (mergeEntities (entities witData) s).1 = true)).
Proof.
  intros s'. unfold s'. rewrite !slot_mergedSession. unfold absent.
  split; [apply mergeEntities_Some|].
  split; [apply orChain_truthy|].
  split.
  { intros Ha v Hv. apply negb_true_iff in Ha. apply orChain_find; assumption. }
  split.
  { intros Ha Hn. apply negb_true_iff in Ha. rewrite orChain_none; auto. }
  split; [apply slotView_orChain|].
  intros toLowerCase witData userMessage. cbv zeta. intros Hk Hgone.
  apply negb_true_iff in Hgone.
  destruct (mergeEntities (entities witData) s) as [s1 r] eqn:Hm.
  pose proof (merge_keeps_filled (entities witData) s k Hk) as Hkeep.
  rewrite Hm in Hkeep. simpl in Hkeep. simpl.
  destruct r as [e|[]].
  - (* the merge throws: the turn ends with the session it found *)
    exfalso. unfold dialogue, bind at 1 in Hgone. rewrite Hm in Hgone.
    simpl in Hgone. congruence.
  - rewrite (dialogue_after_merge toLowerCase witData userMessage s s1 Hm) in Hgone.
    destruct (decision_session toLowerCase witData userMessage s1) as [Hsame|[_ Hreset]].
    + exfalso. rewrite Hsame in Hgone. congruence.
    + exact Hreset.
Qed.

Lemma merge_first_write_wins_witness :
  slot Facility (mergedSession facilityEntities midFlowSession) = JStr "Acıbadem"
  /\ slot DateTime (mergedSession datetimeEntities midFlowSession) = JStr "2025-07-11T10:00".
Proof.
  split.
  - exact (proj1 (proj2 (merge_first_write_wins facilityEntities midFlowSession Facility))
             eq_refl).
  - exact (proj1 (proj2 (proj2
             (merge_first_write_wins datetimeEntities midFlowSession DateTime)))
             eq_refl (JStr "2025-07-11T10:00") eq_refl).
Defined.

(** ** Asking for the next missing slot *)

Lemma question_inj (j k : Slot) : question j = question k -> j = k.
Proof.
  destruct j, k; intros H; try reflexivity; vm_compute in H; discriminate H.
Qed.

Lemma other_replies_not_question (k : Slot) (s : Session) :
  cancelReply <> question k
  /\ successReply <> question k
  /\ confirmationMessage s <> question k.
Proof.
  repeat split; destruct k; intros H;
    unfold confirmationMessage in H; simpl in H; discriminate H.
Qed.

Lemma firstMissing_absent (s : Session) (k : Slot) :
  firstMissing s = Some k -> absent (slot k s) = true.
Proof.
  unfold firstMissing.
  destruct (absent (hastane s)) eqn:Hh; [intros [= <-]; exact Hh|].
  destruct (absent (bolum s)) eqn:Hb; [intros [= <-]; exact Hb|].
  destruct (absent (datetime s)) eqn:Hd; [intros [= <-]; exact Hd|].
  discriminate.
Qed.

Lemma decision_in_flow (toLowerCase : string -> string) (witData : WitData)
    (userMessage : string) (s' : Session) :
  hasCancelKeyword (toLowerCase userMessage) = false ->
  flowCondition (toLowerCase userMessage) (intentOf witData) (confidenceOf witData) s' = true ->
  decision toLowerCase witData userMessage s'
  = match firstMissing s' with
    | Some k => (s', Return (Reply (question k)))
    | None =>
        if includes (toLowerCase userMessage) "evet"
        then (initialSession, Return (Reply successReply))
        else (s', Return (Reply (confirmationMessage s')))
    end.
Proof.
  intros Hc Hf. unfold decision, firstMissing, absent. rewrite Hc, Hf.
  destruct (truthy (hastane s')); simpl; [|reflexivity].
  destruct (truthy (bolum s')); simpl; [|reflexivity].
  destruct (truthy (datetime s')); simpl; [|reflexivity].
  destruct (includes (toLowerCase userMessage) "evet"); reflexivity.
Qed.

(** C5: a turn without cancellation keyword that enters the flow is answered
    by the question for the first slot, in the order facility, department,
    date/time, that is still absent after the merge, and the session it
    leaves is the merged one: this step changes no slot. No turn asks for a
    slot that was already filled when the turn began. *)
Theorem slot_filling_asks_next_missing
    (toLowerCase : string -> string)
    (its : option (list Intent)) (m : gmap string (list Entity))
    (userMessage : string) (s : Session) :
  let witData := {| intents := its; entities := Some m |} in
  let text := toLowerCase userMessage in
  let s' := mergedSession m s in
  hasCancelKeyword text = false ->
  flowCondition text (intentOf witData) (confidenceOf witData) s' = true ->
  (forall k, firstMissing s' = Some k ->
     dialogue toLowerCase witData userMessage s = (s', Return (Reply (question k))))
  /\ (forall k, truthy (slot k s) = true ->
        (dialogue toLowerCase witData userMessage s).2 <> Return (Reply (question k))).
Proof.
  intros witData text s' Hc Hf.
  assert (Hd : dialogue toLowerCase witData userMessage s
               = match firstMissing s' with
                 | Some k => (s', Return (Reply (question k)))
                 | None =>
                     if includes text "evet"
                     then (initialSession, Return (Reply successReply))
                     else (s', Return (Reply (confirmationMessage s')))
                 end).
  { unfold witData. rewrite dialogue_with_entities. apply decision_in_flow; assumption. }
  split.
  - intros k Hk. rewrite Hd, Hk. reflexivity.
  - intros k Hk. rewrite Hd.
    destruct (other_replies_not_question k s') as (_ & Hsucc & Hconf).
    destruct (firstMissing s') as [j|] eqn:Hj.
    + simpl. intros [= Heq]. apply question_inj in Heq. subst j.
      apply firstMissing_absent in Hj. unfold absent, s' in Hj.
      rewrite slot_mergedSession, (orChain_truthy _ _ Hk), Hk in Hj. discriminate Hj.
    + destruct (includes text "evet"); simpl; congruence.
Qed.

Lemma slot_filling_asks_next_missing_witness :
  dialogue asciiToLowerCase {| intents := Some []; entities := Some departmentEntities |}
    "kardiyoloji" midFlowSession
  = (mergedSession departmentEntities midFlowSession, Return (Reply askDatetime)).
Proof.
  apply (proj1 (slot_filling_asks_next_missing asciiToLowerCase (Some [])
                  departmentEntities "kardiyoloji" midFlowSession eq_refl eq_refl)
           DateTime).
  reflexivity.
Defined.

(** The conversation of the specification's example: facility, department
    and date/time are asked for in turn, the confirmation is repeated until
    [evet], and the session is empty again at the end. *)
Example example_conversation :
  runTurns asciiToLowerCase exampleConversation initialSession
  = (initialSession,
     [ Return (Reply askHastane); Return (Reply askBolum); Return (Reply askDatetime);
       Return (Reply (confirmationMessage filledSession));
       Return (Reply (confirmationMessage filledSession));
       Return (Reply successReply) ]).
Proof. vm_compute. reflexivity. Qed.

(** ** Confirmation *)

Lemma firstMissing_filled (s : Session) : allFilled s = true -> firstMissing s = None.
Proof.
  unfold allFilled, firstMissing, absent. intros H.
  apply andb_prop in H as [H Hd]. apply andb_prop in H as [Hh Hb].
  rewrite Hh, Hb, Hd. reflexivity.
Qed.

Lemma decision_filled (toLowerCase : string -> string) (witData : WitData)
    (userMessage : string) (s' : Session) :
  allFilled s' = true ->
  hasCancelKeyword (toLowerCase userMessage) = false ->
  decision toLowerCase witData userMessage s'
  = if includes (toLowerCase userMessage) "evet"
    then (initialSession, Return (Reply successReply))
    else (s', Return (Reply (confirmationMessage s'))).
Proof.
  intros Hs Hc. rewrite decision_in_flow, (firstMissing_filled _ Hs); auto.
  apply (flowCondition_filled _ _ _ _ Facility). simpl.
  unfold allFilled in Hs. apply andb_prop in Hs as [Hs _].
  apply andb_prop in Hs as [Hs _]. exact Hs.
Qed.



(** C7, the input the claim misses: after a confirmed booking the session is
    empty again; the next message contains [randevu], its top intent is
    [randevu_al] with confidence 0.9 and the classifier extracts a facility
    from it. The flow is entered, and the reply asks for the department, not
    for the facility. *)
Lemma restart_with_facility_asks_department :
  let witData := {| intents := bookingIntent 0.9; entities := Some facilityEntities |} in
  let text := asciiToLowerCase "Acibadem icin randevu" in
  dialogue asciiToLowerCase {| intents := Some []; entities := Some noEntities |}
    "Evet" filledSession
  = (initialSession, Return (Reply successReply))
  /\ includes text "randevu" && strictEqStr (intentOf witData) "randevu_al"
       && gt (confidenceOf witData) 0.7%float = true
  /\ hasCancelKeyword text = false
  /\ dialogue asciiToLowerCase witData "Acibadem icin randevu" initialSession
     = (mergedSession facilityEntities initialSession, Return (Reply askBolum))
  /\ askBolum <> askHastane.
Proof.
  repeat split; try (vm_compute; reflexivity).
  intros H. vm_compute in H. discriminate H.
Qed.

(** C7, amended: with all three slots filled, a turn whose lower-cased
    message contains [evet] and no cancellation keyword leaves all three
    slots [null] and is answered by the fixed success reply, whatever the
    classifier answered. A later turn on a session whose slots are all
    absent, as that one is, that meets the flow-entry condition again and in
    which no alias yields a facility is answered by the question for the
    facility. *)
Theorem affirmation_completes_and_restarts
    (toLowerCase : string -> string) (witData : WitData) (userMessage : string)
    (s : Session) :
  allFilled s = true ->
  hasCancelKeyword (toLowerCase userMessage) = false ->
  includes (toLowerCase userMessage) "evet" = true ->
  dialogue toLowerCase witData userMessage s = (initialSession, Return (Reply successReply))
  /\ (forall fetchGemini,
        generateResponse toLowerCase fetchGemini witData userMessage s
        = (initialSession, Return successReply))
  /\ allAbsent initialSession = true
  /\ (forall s0 its' m' userMessage',
        let witData' := {| intents := its'; entities := Some m' |} in
        let text' := toLowerCase userMessage' in
        allAbsent s0 = true ->
        hasCancelKeyword text' = false ->
        flowCondition text' (intentOf witData') (confidenceOf witData')
          (mergedSession m' s0) = true ->
        firstNonEmpty (aliases Facility m') = None ->
        dialogue toLowerCase witData' userMessage' s0
        = (mergedSession m' s0, Return (Reply askHastane))).
Proof.
  intros Hs Hc He.
  assert (Hd : dialogue toLowerCase witData userMessage s
               = (initialSession, Return (Reply successReply))).
  { rewrite (dialogue_filled _ _ _ _ Hs), (decision_filled _ _ _ _ Hs Hc), He.
    reflexivity. }
  split; [exact Hd|]. split; [|split; [reflexivity|]].
  - intros fetchGemini. apply generateResponse_Reply, Hd.
  - intros s0 its' m' userMessage' witData' text' Hs0 Hc' Hf' Hnone.
    unfold witData'. rewrite dialogue_with_entities, decision_in_flow by assumption.
    assert (Hh : absent (hastane (mergedSession m' s0)) = true).
    { unfold allAbsent, absent in *. apply negb_true_iff.
      apply andb_prop in Hs0 as [Hs0 _]. apply andb_prop in Hs0 as [Hs0 _].
      apply negb_true_iff in Hs0.
      apply (orChain_none (hastane s0) (aliases Facility m')); assumption. }
    unfold firstMissing. rewrite Hh. reflexivity.
Qed.

Lemma affirmation_completes_and_restarts_witness :
  dialogue asciiToLowerCase {| intents := None; entities := None |} "Evet, onayliyorum"
    filledSession
  = (initialSession, Return (Reply successReply)).
Proof.
  apply (affirmation_completes_and_restarts asciiToLowerCase
           {| intents := None; entities := None |} "Evet, onayliyorum" filledSession);
    reflexivity.
Defined.

(** ** The replies of [askGemini] *)

Lemma prefix_append (p m : string) : String.prefix p (p +:+ m) = true.
Proof.
  induction p as [|a p IH]; simpl.
  - destruct m; reflexivity.
  - destruct (Ascii.ascii_dec a a); [exact IH|congruence].
Qed.

Lemma not_prefixed_neq (p r m : string) : String.prefix p r = false -> r <> p +:+ m.
Proof. intros H ->. rewrite prefix_append in H. discriminate H. Qed.

Section Replies.

Variable fetchGemini : string -> completion (option GeminiData).
Variables text context : string.

Lemma askGemini_fetch_throws (e : jsError) :
  fetchGemini (finalPrompt text context) = Throw e ->
  askGemini fetchGemini text context = Return connectionReply.
Proof. intros H. unfold askGemini, askGeminiTry. rewrite H. reflexivity. Qed.

Lemma askGemini_body (data : GeminiData) :
  fetchGemini (finalPrompt text context) = Return (Some data) ->
  askGemini fetchGemini text context
  = match errorBlock data with
    | Throw e => Return connectionReply
    | Return (Some r) => Return r
    | Return None =>
        Return (toStr (jsOr (firstCandidateText data) (JStr notUnderstoodReply)))
    end.
Proof.
  intros H. unfold askGemini, askGeminiTry. rewrite H.
  destruct (errorBlock data) as [e|[r|]]; reflexivity.
Qed.

Lemma askGemini_rate_limit (data : GeminiData) (err : GeminiError) :
  fetchGemini (finalPrompt text context) = Return (Some data) ->
  error data = Some err ->
  codeIs err 429 = true ->
  askGemini fetchGemini text context = Return rateLimitReply.
Proof.
  intros H He Hc. rewrite (askGemini_body _ H). unfold errorBlock.
  rewrite He, Hc. reflexivity.
Qed.

Lemma askGemini_invalid_key (data : GeminiData) (err : GeminiError) (msg : string) :
  fetchGemini (finalPrompt text context) = Return (Some data) ->
  error data = Some err ->
  codeIs err 400 = true ->
  message err = JStr msg ->
  includes msg "API key not valid" = true ->
  askGemini fetchGemini text context = Return invalidKeyReply.
Proof.
  intros H He Hc Hm Hi. rewrite (askGemini_body _ H). unfold errorBlock.
  rewrite He.
  assert (H429 : codeIs err 429 = false).
  { unfold codeIs in *. destruct (code err) as [c|]; [|reflexivity].
    apply Z.eqb_eq in Hc. subst c. reflexivity. }
  rewrite H429, Hc, Hm. simpl. rewrite Hi. reflexivity.
Qed.

Lemma askGemini_other_error (data : GeminiData) (err : GeminiError) (msg : string) :
  fetchGemini (finalPrompt text context) = Return (Some data) ->
  error data = Some err ->
  codeIs err 429 = false ->
  codeIs err 400 && includes msg "API key not valid" = false ->
  message err = JStr msg ->
  msg <> "" ->
  askGemini fetchGemini text context = Return (serviceErrorPrefix +:+ msg).
Proof.
  intros H He H429 Hk Hm Hne. rewrite (askGemini_body _ H). unfold errorBlock.
  rewrite He, H429, Hm.
  assert (Ht : truthy (JStr msg) = true) by (destruct msg; [congruence|reflexivity]).
  destruct (codeIs err 400); cbn [andb includesV] in Hk |- *.
  - rewrite Hk, Ht. reflexivity.
  - rewrite Ht. reflexivity.
Qed.

Lemma askGemini_no_error (data : GeminiData) :
  fetchGemini (finalPrompt text context) = Return (Some data) ->
  error data = None ->
  askGemini fetchGemini text context
  = Return (if truthy (firstCandidateText data) then toStr (firstCandidateText data)
            else notUnderstoodReply).
Proof.
  intros H He. rewrite (askGemini_body _ H). unfold errorBlock, jsOr. rewrite He.
  destruct (truthy (firstCandidateText data)); reflexivity.
Qed.

End Replies.

Lemma fixed_replies_distinct :
  NoDup [ rateLimitReply; invalidKeyReply; connectionReply; notUnderstoodReply ]
  /\ forall r msg,
       r ∈ [ rateLimitReply; invalidKeyReply; connectionReply; notUnderstoodReply ] ->
       r <> serviceErrorPrefix +:+ msg.
Proof.
  split.
  - apply (bool_decide_unpack _). vm_compute. reflexivity.
  - intros r msg Hr. apply not_prefixed_neq.
    repeat (apply elem_of_cons in Hr as [->|Hr]; [vm_compute; reflexivity|]).
    apply elem_of_nil in Hr. destruct Hr.
Qed.

(** C8, the input the claim misses: two structured service errors that are
    neither a rate limit nor an invalid credential are answered by two
    different strings, each ending in the service's own message. The reply
    to this category of failure is not a fixed string. *)
Lemma service_error_reply_varies :
  askGemini (serviceError 503 "The model is overloaded.") "merhaba" ""
  = Return (serviceErrorPrefix +:+ "The model is overloaded.")
  /\ askGemini (serviceError 500 "Internal error encountered.") "merhaba" ""
     = Return (serviceErrorPrefix +:+ "Internal error encountered.")
  /\ serviceErrorPrefix +:+ "The model is overloaded."
     <> serviceErrorPrefix +:+ "Internal error encountered.".
Proof.
  repeat split; try (vm_compute; reflexivity).
  intros H. vm_compute in H. discriminate H.
Qed.

(** C8, amended: [askGemini] never throws, it returns a string. A failure of
    the request or of reading its JSON body gives the fixed connection
    apology; error code 429 gives the fixed rate-limit apology; code 400
    with a message containing [API key not valid] gives the fixed
    invalid-key apology; any other error object with a non-empty message
    gives a fixed prefix followed by that message; an answer without error
    object gives the text of the first candidate, or the fixed
    not-understood string when there is none. The four fixed strings are
    pairwise distinct, and none of them is a reply of the prefixed kind. *)
Theorem askGemini_maps_failures
    (fetchGemini : string -> completion (option GeminiData)) (text context : string) :
  let answer := fetchGemini (finalPrompt text context) in
  let reply := askGemini fetchGemini text context in
  (exists r, reply = Return r)
  /\ (forall e, answer = Throw e -> reply = Return connectionReply)
  /\ (forall data err, answer = Return (Some data) -> error data = Some err ->
        (codeIs err 429 = true -> reply = Return rateLimitReply)
        /\ (forall msg,
              codeIs err 400 = true -> message err = JStr msg ->
              includes msg "API key not valid" = true ->
              reply = Return invalidKeyReply)
        /\ (forall msg,
              codeIs err 429 = false ->
              codeIs err 400 && includes msg "API key not valid" = false ->
              message err = JStr msg -> msg <> "" ->
              reply = Return (serviceErrorPrefix +:+ msg)))
  /\ (forall data, answer = Return (Some data) -> error data = None ->
        reply = Return (if truthy (firstCandidateText data)
                        then toStr (firstCandidateText data)
                        else notUnderstoodReply))
  /\ NoDup [ rateLimitReply; invalidKeyReply; connectionReply; notUnderstoodReply ]
  /\ (forall r msg,
        r ∈ [ rateLimitReply; invalidKeyReply; connectionReply; notUnderstoodReply ] ->
        r <> serviceErrorPrefix +:+ msg).
Proof.
  intros answer reply. unfold answer, reply.
  split; [apply askGemini_returns|].
  split; [apply askGemini_fetch_throws|].
  split.
  { intros data err H He. split; [apply (askGemini_rate_limit _ _ _ _ _ H He)|].
    split; intros msg.
    - apply (askGemini_invalid_key _ _ _ _ _ _ H He).
    - apply (askGemini_other_error _ _ _ _ _ _ H He). }
  split; [apply askGemini_no_error|].
  exact fixed_replies_distinct.
Qed.

Lemma askGemini_maps_failures_witness :
  askGemini serviceDown "merhaba" "" = Return connectionReply.
Proof.
  apply (proj1 (proj2 (askGemini_maps_failures serviceDown "merhaba" ""))
           (Error "fetch failed")).
  reflexivity.
Defined.

(** An error object with code 400 and no message: reading [message.includes]
    throws inside the [try], and the reply is the connection apology. *)
Example askGemini_error_without_message :
  askGemini
    (fun _ => Return (Some {| error := Some {| code := Some 400%Z; message := JUndefined |};
                              candidates := None |}))
    "merhaba" ""
  = Return connectionReply.
Proof. reflexivity. Qed.

(** ** The generative fallback and the session *)

Lemma sessionView_allAbsent (s : Session) :
  allAbsent s = true -> sessionView s = (None, None, None).
Proof.
  unfold allAbsent, absent, sessionView. intros H.
  apply andb_prop in H as [H Hd]. apply andb_prop in H as [Hh Hb].
  apply negb_true_iff in Hh, Hb, Hd.
  rewrite !slotView_falsy by assumption. reflexivity.
Qed.

Lemma allFilled_not_allAbsent (s : Session) : allFilled s = true -> allAbsent s = false.
Proof.
  unfold allFilled, allAbsent, absent. intros H.
  apply andb_prop in H as [H _]. apply andb_prop in H as [Hh _].
  rewrite Hh. reflexivity.
Qed.

Lemma decision_fallback (toLowerCase : string -> string) (witData : WitData)
    (userMessage text context : string) (s' s'' : Session) :
  decision toLowerCase witData userMessage s' = (s'', Return (CallGemini text context)) ->
  s'' = s' /\ allAbsent s' = true /\ hasCancelKeyword (toLowerCase userMessage) = false
  /\ flowCondition (toLowerCase userMessage) (intentOf witData) (confidenceOf witData) s'
     = false.
Proof.
  unfold decision.
  destruct (hasCancelKeyword (toLowerCase userMessage)); [discriminate|].
  destruct (flowCondition _ _ _ s') eqn:Hf.
  - repeat match goal with |- context [if ?b then _ else _] => destruct b end;
      discriminate.
  - intros [= <- _ _]. repeat split; try reflexivity.
    unfold allAbsent, absent.
    destruct (truthy (hastane s')) eqn:Hh.
    { rewrite (flowCondition_filled _ _ _ _ Facility Hh) in Hf. discriminate Hf. }
    destruct (truthy (bolum s')) eqn:Hb.
    { rewrite (flowCondition_filled _ _ _ _ Department Hb) in Hf. discriminate Hf. }
    destruct (truthy (datetime s')) eqn:Hd.
    { rewrite (flowCondition_filled _ _ _ _ DateTime Hd) in Hf. discriminate Hf. }
    reflexivity.
Qed.

Lemma dialogue_fallback (toLowerCase : string -> string) (witData : WitData)
    (userMessage text context : string) (s s' : Session) :
  dialogue toLowerCase witData userMessage s = (s', Return (CallGemini text context)) ->
  exists m, entities witData = Some m /\ s' = mergedSession m s
            /\ allAbsent s' = true
            /\ hasCancelKeyword (toLowerCase userMessage) = false.
Proof.
  intros H. destruct witData as [its [m|]].
  - rewrite dialogue_with_entities in H.
    apply decision_fallback in H as (-> & Ha & Hc & _). exists m. auto.
  - exfalso. destruct (allFilled s) eqn:Hs.
    + rewrite (dialogue_filled _ _ _ _ Hs) in H.
      apply decision_fallback in H as (_ & Ha & _).
      rewrite (allFilled_not_allAbsent _ Hs) in Ha. discriminate Ha.
    + rewrite (dialogue_without_entities _ _ _ _ Hs) in H. discriminate H.
Qed.

Lemma dialogue_throw (toLowerCase : string -> string) (witData : WitData)
    (userMessage : string) (e : jsError) (s s' : Session) :
  dialogue toLowerCase witData userMessage s = (s', Throw e) -> s' = s.
Proof.
  intros H. destruct (mergeEntities (entities witData) s) as [s1 [e1|[]]] eqn:Hm.
  - unfold dialogue, bind at 1 in H. rewrite Hm in H.
    destruct (entities witData) as [m|].
    + rewrite mergeEntities_Some in Hm. discriminate Hm.
    + rewrite mergeEntities_None in Hm. congruence.
  - rewrite (dialogue_after_merge _ _ _ _ _ Hm) in H.
    destruct (decision_returns toLowerCase witData userMessage s1) as (s2 & st & Hd).
    rewrite Hd in H. discriminate H.
Qed.

Lemma fallback_session_view (toLowerCase : string -> string) (witData : WitData)
    (userMessage text context : string) (s s' : Session) :
  dialogue toLowerCase witData userMessage s = (s', Return (CallGemini text context)) ->
  sessionView s' = sessionView s.
Proof.
  intros H. apply dialogue_fallback in H as (m & _ & -> & Ha' & _).
  destruct (allAbsent_merged_inv _ _ Ha') as [Ha _].
  rewrite !sessionView_allAbsent by assumption. reflexivity.
Qed.

(** C10: a turn that reaches the generative fallback. The classifier's
    answer carried an entity mapping whose aliases yielded nothing, the
    message held no cancellation keyword, every slot was absent when the turn
    began and is absent when it ends: as three optional strings the session
    is what it was. What the merge wrote over the absent slots cannot be
    told apart afterwards: on every later classifier answer with an entity
    mapping the manager decides from the session the turn left exactly as it
    would from the session the turn found. *)
Theorem fallback_leaves_session_absent
    (toLowerCase : string -> string) (witData : WitData)
    (userMessage text context : string) (s s' : Session) :
  dialogue toLowerCase witData userMessage s = (s', Return (CallGemini text context)) ->
  allAbsent s = true
  /\ allAbsent s' = true
  /\ sessionView s' = sessionView s
  /\ hasCancelKeyword (toLowerCase userMessage) = false
  /\ (exists m, entities witData = Some m /\ nothingExtracted m
                /\ s' = mergedSession m s)
  /\ (forall lower its m userMessage',
        dialogue lower {| intents := its; entities := Some m |} userMessage' s'
        = dialogue lower {| intents := its; entities := Some m |} userMessage' s).
Proof.
  intros H. apply dialogue_fallback in H as (m & He & -> & Ha' & Hc).
  destruct (allAbsent_merged_inv _ _ Ha') as [Ha Hm].
  split; [exact Ha|]. split; [exact Ha'|]. split.
  { rewrite !sessionView_allAbsent by assumption. reflexivity. }
  split; [exact Hc|]. split.
  { exists m. auto. }
  intros lower its m' userMessage'.
  rewrite !dialogue_with_entities.
  rewrite (mergedSession_absent_irrelevant m' _ s Ha' Ha). reflexivity.
Qed.

Lemma fallback_leaves_session_absent_witness :
  sessionView (mergedSession noEntities initialSession) = sessionView initialSession.
Proof.
  apply (fallback_leaves_session_absent asciiToLowerCase
           {| intents := bookingIntent 0.7; entities := Some noEntities |}
           "Randevu almak istiyorum" "Randevu almak istiyorum"
           (geminiContext "Randevu almak istiyorum" (JStr "randevu_al") 0.7%float)
           initialSession (mergedSession noEntities initialSession)).
  vm_compute. reflexivity.
Defined.

(** A greeting with no active slot goes to the generative service, and the
    service's text is the reply, unchanged. The three slots, [null] before
    the turn, hold [undefined] after it, the value of the last alias: absent
    as before. *)
Example fallback_reply_verbatim :
  generateResponse asciiToLowerCase (serviceAnswer "Merhaba! Size nasıl yardımcı olabilirim?")
    {| intents := Some [ {| name := JStr "selamlama"; confidence := Some 0.93%float |} ];
       entities := Some noEntities |}
    "Merhaba" initialSession
  = ({| hastane := JUndefined; bolum := JUndefined; datetime := JUndefined |},
     Return "Merhaba! Size nasıl yardımcı olabilirim?").
Proof. vm_compute. reflexivity. Qed.

(** ** Errors and the session *)

Section Turn.

Variable toLowerCase : string -> string.
Variable fetchGemini : string -> completion (option GeminiData).
Variable askWit : string -> completion WitData.

Lemma generateResponse_session (witData : WitData) (userMessage : string) (s : Session) :
  (generateResponse toLowerCase fetchGemini witData userMessage s).1
  = (dialogue toLowerCase witData userMessage s).1.
Proof.
  unfold generateResponse, bind.
  destruct (dialogue toLowerCase witData userMessage s) as [s' [e|[r|t c]]]; reflexivity.
Qed.

Lemma generateResponse_throw (witData : WitData) (userMessage : string) (e : jsError)
    (s s' : Session) :
  generateResponse toLowerCase fetchGemini witData userMessage s = (s', Throw e) -> s' = s.
Proof.
  intros H.
  destruct (dialogue toLowerCase witData userMessage s) as [s1 [e1|[r|t c]]] eqn:Hd.
  - rewrite (generateResponse_Throw _ _ _ _ _ _ _ Hd) in H.
    injection H as <- _. apply (dialogue_throw _ _ _ _ _ _ Hd).
  - rewrite (generateResponse_Reply _ _ _ _ _ _ _ Hd) in H. discriminate H.
  - rewrite (generateResponse_CallGemini _ _ _ _ _ _ _ _ Hd) in H.
    destruct (askGemini_returns fetchGemini t c) as [r Hr].
    rewrite Hr in H. discriminate H.
Qed.

Lemma chatTry_unfold (userInput : string) (s : Session) :
  chatTry toLowerCase fetchGemini askWit userInput s
  = match askWit userInput with
    | Throw e => (s, Throw e)
    | Return witData => generateResponse toLowerCase fetchGemini witData userInput s
    end.
Proof.
  unfold chatTry, bind at 1, evalExpr.
  destruct (askWit userInput) as [e|witData]; [reflexivity|].
  destruct (generateResponse _ _ _ _ _) as [s' [e|r]]; reflexivity.
Qed.

Lemma chatTry_throw (userInput : string) (e : jsError) (s s' : Session) :
  chatTry toLowerCase fetchGemini askWit userInput s = (s', Throw e) -> s' = s.
Proof.
  rewrite chatTry_unfold. destruct (askWit userInput) as [e'|witData].
  - intros [= <- _]. reflexivity.
  - apply generateResponse_throw.
Qed.

End Turn.

(** C9: one turn of the chat loop. A turn that ends in an error, whether the
    classifier call fails or [generateResponse] throws, leaves the session
    exactly as it found it and prints the generic failure reply; so a turn
    that changes the session has the classifier's answer and ran to its
    reply. The session a turn leaves is the same whatever the generative
    service does. A turn that changes a slot, as an optional string, has
    decided its reply itself: the generative service is not called on it,
    which covers the cancellation and the confirmation. *)
Theorem errors_leave_session_intact
    (toLowerCase : string -> string)
    (fetchGemini : string -> completion (option GeminiData))
    (askWit : string -> completion WitData)
    (userInput : string) (s : Session) :
  let turn := chatTurn toLowerCase fetchGemini askWit userInput s in
  (forall s' e,
     chatTry toLowerCase fetchGemini askWit userInput s = (s', Throw e) ->
     s' = s /\ turn = (s, turnFailedReply))
  /\ (forall e, askWit userInput = Throw e -> turn = (s, turnFailedReply))
  /\ (turn.1 <> s ->
      exists witData r,
        askWit userInput = Return witData
        /\ generateResponse toLowerCase fetchGemini witData userInput s
           = (turn.1, Return r))
  /\ (forall fetch' : string -> completion (option GeminiData),
        (chatTurn toLowerCase fetch' askWit userInput s).1 = turn.1)
  /\ (sessionView turn.1 <> sessionView s ->
      exists witData r,
        askWit userInput = Return witData
        /\ dialogue toLowerCase witData userInput s = (turn.1, Return (Reply r))).
Proof.
  intros turn. unfold turn, chatTurn.
  split.
  { intros s' e H. pose proof (chatTry_throw _ _ _ _ _ _ _ H) as ->.
    rewrite H. auto. }
  split.
  { intros e H. rewrite chatTry_unfold, H. reflexivity. }
  split.
  { intros Hchg. rewrite chatTry_unfold in *.
    destruct (askWit userInput) as [e|witData]; [simpl in Hchg; congruence|].
    destruct (generateResponse toLowerCase fetchGemini witData userInput s)
      as [s' [e|r]] eqn:Hg.
    - apply generateResponse_throw in Hg. simpl in Hchg. congruence.
    - exists witData, r. auto. }
  split.
  { intros fetch'. rewrite !chatTry_unfold.
    destruct (askWit userInput) as [e|witData]; [reflexivity|].
    pose proof (generateResponse_session toLowerCase fetch' witData userInput s) as H1.
    pose proof (generateResponse_session toLowerCase fetchGemini witData userInput s) as H2.
    destruct (generateResponse toLowerCase fetch' witData userInput s) as [s1 [e1|r1]];
    destruct (generateResponse toLowerCase fetchGemini witData userInput s) as [s2 [e2|r2]];
    simpl in *; congruence. }
  intros Hchg. rewrite chatTry_unfold in *.
  destruct (askWit userInput) as [e|witData]; [simpl in Hchg; congruence|].
  exists witData.
  pose proof (generateResponse_session toLowerCase fetchGemini witData userInput s) as Hs.
  assert (Hturn : (let (s', c) := generateResponse toLowerCase fetchGemini witData userInput s
                   in match c with
                      | Throw _ => (s', turnFailedReply)
                      | Return botResponse => (s', botResponse)
                      end).1
                  = (dialogue toLowerCase witData userInput s).1).
  { rewrite <- Hs. destruct (generateResponse _ _ _ _ _) as [s' [e|r]]; reflexivity. }
  rewrite Hturn in *.
  destruct (dialogue toLowerCase witData userInput s) as [s1 [e|[r|t c]]] eqn:Hd.
  - apply dialogue_throw in Hd. simpl in Hchg. congruence.
  - exists r. split; reflexivity.
  - exfalso. apply Hchg. simpl.
    apply (fallback_session_view toLowerCase witData userInput t c s s1 Hd).
Qed.

Lemma errors_leave_session_intact_witness :
  chatTurn asciiToLowerCase serviceDown classifierDown "Evet" filledSession
  = (filledSession, turnFailedReply).
Proof.
  apply (proj1 (proj2 (errors_leave_session_intact asciiToLowerCase serviceDown
                         classifierDown "Evet" filledSession))
           (Error "Wit.ai Hatası: 500")).
  reflexivity.
Defined.

(** * Further properties of the code *)

(** ** More on the flow decision *)

Lemma append_assoc (a b c : string) : (a +:+ b) +:+ c = a +:+ (b +:+ c).
Proof.
  induction a as [|x a IH]; [reflexivity|].
  change (String x ((a +:+ b) +:+ c) = String x (a +:+ (b +:+ c))).
  rewrite IH. reflexivity.
Qed.

Lemma allFilled_hastane (s : Session) : allFilled s = true -> truthy (hastane s) = true.
Proof.
  unfold allFilled. intros H. apply andb_prop in H as [H _].
  apply andb_prop in H as [H _]. exact H.
Qed.

(** X2: the confirmation question is no precondition of a booking. A turn
    whose merge leaves all three slots filled and whose lower-cased message
    contains [evet] (and no cancellation keyword) is answered by the success
    reply at once and leaves every slot [null], also when the slots were
    filled by this very turn and no confirmation was ever shown. *)
Theorem last_slot_with_evet_books_at_once
    (toLowerCase : string -> string)
    (fetchGemini : string -> completion (option GeminiData))
    (its : option (list Intent)) (m : gmap string (list Entity))
    (userMessage : string) (s : Session) :
  allFilled (mergedSession m s) = true ->
  hasCancelKeyword (toLowerCase userMessage) = false ->
  includes (toLowerCase userMessage) "evet" = true ->
  generateResponse toLowerCase fetchGemini {| intents := its; entities := Some m |}
    userMessage s
  = (initialSession, Return successReply).
Proof.
  intros Hs Hc He. apply generateResponse_Reply.
  rewrite dialogue_with_entities, (decision_filled _ _ _ _ Hs Hc), He. reflexivity.
Qed.

Lemma last_slot_with_evet_books_at_once_witness :
  generateResponse asciiToLowerCase serviceDown
    {| intents := Some []; entities := Some datetimeEntities |}
    "Evet, yarin saat 10"
    {| hastane := JStr "Acıbadem"; bolum := JStr "kardiyoloji"; datetime := JNull |}
  = (initialSession, Return successReply).
Proof.
  apply (last_slot_with_evet_books_at_once asciiToLowerCase serviceDown (Some [])
           datetimeEntities "Evet, yarin saat 10"
           {| hastane := JStr "Acıbadem"; bolum := JStr "kardiyoloji"; datetime := JNull |});
    vm_compute; reflexivity.
Defined.

(** X3: the keyword gate of line 126. With every slot absent and nothing
    extracted, a message whose lower-cased text does not contain [randevu]
    never enters the flow, whatever intent and confidence the classifier
    reports: the turn goes to the generative service. When the intent is
    [randevu_al] the hint does not name it: it says that no intent was
    determined. *)
Theorem no_keyword_no_flow
    (toLowerCase : string -> string)
    (its : option (list Intent)) (m : gmap string (list Entity))
    (userMessage : string) (s : Session) :
  let witData := {| intents := its; entities := Some m |} in
  allAbsent s = true ->
  nothingExtracted m ->
  hasCancelKeyword (toLowerCase userMessage) = false ->
  includes (toLowerCase userMessage) "randevu" = false ->
  dialogue toLowerCase witData userMessage s
  = (mergedSession m s,
     Return (CallGemini userMessage
               (geminiContext userMessage (intentOf witData) (confidenceOf witData))))
  /\ (strictEqStr (intentOf witData) "randevu_al" = true ->
      geminiContext userMessage (intentOf witData) (confidenceOf witData)
      = "Kullanıcının mesajı: " +:+ dquote +:+ userMessage +:+ dquote +:+ "."
        +:+ " Wit.ai belirli bir niyet belirleyemedi veya randevu akışına girilmedi."
        +:+ " Lütfen doğal ve sohbetvari bir şekilde yanıt verin.").
Proof.
  intros witData Hs Hm Hc Hk. split.
  - unfold witData. rewrite dialogue_with_entities. unfold decision.
    rewrite Hc, (flowCondition_absent _ _ _ _ (allAbsent_merged m s Hs Hm)), Hk.
    reflexivity.
  - intros Hi. unfold geminiContext. rewrite Hi. cbn [negb].
    rewrite andb_false_r. cbn [andb]. rewrite !append_assoc. reflexivity.
Qed.

Lemma no_keyword_no_flow_witness :
  dialogue asciiToLowerCase {| intents := bookingIntent 0.95; entities := Some noEntities |}
    "Doktora gorunmek istiyorum" initialSession
  = (mergedSession noEntities initialSession,
     Return (CallGemini "Doktora gorunmek istiyorum"
               (geminiContext "Doktora gorunmek istiyorum" (JStr "randevu_al") 0.95%float))).
Proof.
  apply (no_keyword_no_flow asciiToLowerCase (bookingIntent 0.95) noEntities
           "Doktora gorunmek istiyorum" initialSession).
  - reflexivity.
  - exact nothingExtracted_noEntities.
  - reflexivity.
  - reflexivity.
Defined.

(** ** Merges of successive turns *)

Lemma orChain_app (current : jsval) (l1 l2 : list jsval) :
  orChain (orChain current l1) l2 = orChain current (l1 ++ l2).
Proof. unfold orChain. symmetry. apply fold_left_app. Qed.

Lemma orChain_idem (current : jsval) (l : list jsval) :
  orChain (orChain current l) l = orChain current l.
Proof.
  destruct l as [|c cs]; [reflexivity|].
  destruct (truthy (orChain current (c :: cs))) eqn:Hr.
  - apply orChain_truthy, Hr.
  - destruct (truthy_orChain_inv _ _ Hr) as [Hcur _].
    rewrite (orChain_cons_falsy _ _ _ Hr), (orChain_cons_falsy _ _ _ Hcur).
    reflexivity.
Qed.

(** X4: the merges of two successive turns compose into one merge over the
    aliases of the first turn followed by those of the second: a slot ends
    as its old value when it was populated, else as the first non-empty
    value among the first turn's aliases and then the second's. So what an
    earlier turn extracted is never replaced by what a later one extracts. *)
Theorem earlier_turn_wins
    (m1 m2 : gmap string (list Entity)) (s : Session) (k : Slot) :
  let s2 := mergedSession m2 (mergedSession m1 s) in
  (mergeEntities (Some m1) ;; mergeEntities (Some m2)) s = (s2, Return tt)
  /\ slotView (slot k s2) = mergedSlotSpec (slot k s) (aliases k m1 ++ aliases k m2)
  /\ (forall v, absent (slot k s) = true ->
        firstNonEmpty (aliases k m1) = Some v -> slot k s2 = v).
Proof.
  intros s2. unfold s2. split; [|split].
  - unfold bind. rewrite !mergeEntities_Some. reflexivity.
  - rewrite !slot_mergedSession, orChain_app. apply slotView_orChain.
  - intros v Ha Hv. apply negb_true_iff in Ha.
    rewrite !slot_mergedSession, (orChain_find _ _ _ Ha Hv).
    apply orChain_truthy. apply find_some in Hv. tauto.
Qed.

Lemma earlier_turn_wins_witness :
  slot Facility
    (mergedSession {[ "hastane" := [ entityOf "Memorial" ] ]}
       (mergedSession facilityEntities initialSession))
  = JStr "Acıbadem".
Proof.
  exact (proj2 (proj2 (earlier_turn_wins facilityEntities
                         {[ "hastane" := [ entityOf "Memorial" ] ]}
                         initialSession Facility))
           (JStr "Acıbadem") eq_refl eq_refl).
Defined.

(** X5: merging the same classifier answer a second time changes nothing,
    whether it carries an entity mapping or not: the session, and the error
    if there is one, are those of the first merge. *)
Theorem merge_idempotent
    (ents : option (gmap string (list Entity))) (s : Session) :
  (mergeEntities ents ;; mergeEntities ents) s = mergeEntities ents s.
Proof.
  unfold bind. destruct ents as [m|].
  - rewrite !mergeEntities_Some. f_equal.
    unfold mergedSession. cbn [hastane bolum datetime].
    f_equal; apply orChain_idem.
  - rewrite mergeEntities_None. destruct (allFilled s) eqn:Hs; [|reflexivity].
    rewrite mergeEntities_None, Hs. reflexivity.
Qed.

(** ** Replies are never empty *)

Lemma append_nonempty_l (a b : string) : a <> "" -> a +:+ b <> "".
Proof. destruct a; [congruence|discriminate]. Qed.

Lemma errorBlock_nonempty (data : GeminiData) (r : string) :
  errorBlock data = Return (Some r) -> r <> "".
Proof.
  unfold errorBlock. destruct (error data) as [err|]; [|discriminate].
  destruct (codeIs err 429); [intros [= <-]; discriminate|].
  destruct (if codeIs err 400 then includesV (message err) "API key not valid"
            else Return false) as [e|[|]]; [discriminate|intros [= <-]; discriminate|].
  destruct (truthy (message err)); [|discriminate].
  intros [= <-]. apply append_nonempty_l. discriminate.
Qed.

Lemma truthy_toStr_nonempty (v : jsval) : truthy v = true -> toStr v <> "".
Proof. destruct v as [| |[|c s]]; simpl; intros H; congruence. Qed.

Lemma askGemini_nonempty (fetchGemini : string -> completion (option GeminiData))
    (text context r : string) :
  askGemini fetchGemini text context = Return r -> r <> "".
Proof.
  unfold askGemini, askGeminiTry, tryCatch.
  destruct (fetchGemini (finalPrompt text context)) as [e|[data|]];
    [intros [= <-]; discriminate| |intros [= <-]; discriminate].
  destruct (errorBlock data) as [e|[r'|]] eqn:Hb.
  - intros [= <-]. discriminate.
  - intros [= <-]. apply (errorBlock_nonempty _ _ Hb).
  - intros [= <-]. unfold jsOr.
    destruct (truthy (firstCandidateText data)) eqn:Ht.
    + apply truthy_toStr_nonempty, Ht.
    + discriminate.
Qed.

Lemma decision_reply_nonempty (toLowerCase : string -> string) (witData : WitData)
    (userMessage r : string) (s' s'' : Session) :
  decision toLowerCase witData userMessage s' = (s'', Return (Reply r)) -> r <> "".
Proof.
  unfold decision.
  repeat match goal with |- context [if ?b then _ else _] => destruct b end;
    intros [= _ <-]; discriminate.
Qed.

Lemma dialogue_return_decision (toLowerCase : string -> string) (witData : WitData)
    (userMessage : string) (step : Step) (s s' : Session) :
  dialogue toLowerCase witData userMessage s = (s', Return step) ->
  exists s1, mergeEntities (entities witData) s = (s1, Return tt)
             /\ decision toLowerCase witData userMessage s1 = (s', Return step).
Proof.
  intros H. destruct (mergeEntities (entities witData) s) as [s1 [e|[]]] eqn:Hm.
  - unfold dialogue, bind at 1 in H. rewrite Hm in H. discriminate H.
  - exists s1. split; [reflexivity|].
    rewrite <- (dialogue_after_merge _ _ _ _ _ Hm). exact H.
Qed.

(** X6: whatever the session, the classifier's answer, the message and the
    generative service, a reply that [generateResponse] returns is not the
    empty string. *)
Theorem reply_never_empty
    (toLowerCase : string -> string)
    (fetchGemini : string -> completion (option GeminiData))
    (witData : WitData) (userMessage r : string) (s s' : Session) :
  generateResponse toLowerCase fetchGemini witData userMessage s = (s', Return r) ->
  r <> "".
Proof.
  intros H.
  destruct (dialogue toLowerCase witData userMessage s) as [s1 [e|[r1|t c]]] eqn:Hd.
  - rewrite (generateResponse_Throw _ _ _ _ _ _ _ Hd) in H. discriminate H.
  - rewrite (generateResponse_Reply _ _ _ _ _ _ _ Hd) in H. injection H as _ <-.
    apply dialogue_return_decision in Hd as (s0 & _ & Hd).
    apply (decision_reply_nonempty _ _ _ _ _ _ Hd).
  - rewrite (generateResponse_CallGemini _ _ _ _ _ _ _ _ Hd) in H. injection H as _ H.
    apply (askGemini_nonempty _ _ _ _ H).
Qed.

Lemma reply_never_empty_witness :
  generateResponse asciiToLowerCase
    (serviceAnswer "Merhaba! Size nasıl yardımcı olabilirim?")
    {| intents := Some []; entities := Some noEntities |} "Merhaba" initialSession
  = (mergedSession noEntities initialSession,
     Return "Merhaba! Size nasıl yardımcı olabilirim?")
  /\ "Merhaba! Size nasıl yardımcı olabilirim?" <> "".
Proof.
  assert (H : generateResponse asciiToLowerCase
                (serviceAnswer "Merhaba! Size nasıl yardımcı olabilirim?")
                {| intents := Some []; entities := Some noEntities |} "Merhaba"
                initialSession
              = (mergedSession noEntities initialSession,
                 Return "Merhaba! Size nasıl yardımcı olabilirim?"))
    by (vm_compute; reflexivity).
  split; [exact H|].
  exact (reply_never_empty _ _ _ _ _ _ _ H).
Defined.

(** ** What the generative service is asked *)

Lemma decision_call (toLowerCase : string -> string) (witData : WitData)
    (userMessage text context : string) (s' s'' : Session) :
  decision toLowerCase witData userMessage s' = (s'', Return (CallGemini text context)) ->
  text = userMessage
  /\ context = geminiContext userMessage (intentOf witData) (confidenceOf witData).
Proof.
  unfold decision.
  repeat match goal with |- context [if ?b then _ else _] => destruct b end;
    intros [= _ <- <-]; split; reflexivity.
Qed.

Lemma geminiContext_truthy (userMessage : string) (intent : jsval) (conf : float) :
  truthy (JStr (geminiContext userMessage intent conf)) = true.
Proof.
  unfold geminiContext.
  destruct (truthy intent && negb (strictEqStr intent "randevu_al") && gt conf 0.5%float);
    reflexivity.
Qed.

(** X7: the generative service is consulted at one prompt only. Whenever
    [generateResponse] calls it, the prompt is the hint, a line break and
    the raw message, never the message alone; so two services that answer
    that prompt alike give the same reply and the same session, whatever
    they answer elsewhere. *)
Theorem fallback_asks_one_prompt
    (toLowerCase : string -> string)
    (fetch1 fetch2 : string -> completion (option GeminiData))
    (witData : WitData) (userMessage : string) (s : Session) :
  let prompt :=
    geminiContext userMessage (intentOf witData) (confidenceOf witData)
    +:+ newline +:+ userMessage in
  fetch1 prompt = fetch2 prompt ->
  generateResponse toLowerCase fetch1 witData userMessage s
  = generateResponse toLowerCase fetch2 witData userMessage s.
Proof.
  intros prompt Hp.
  destruct (dialogue toLowerCase witData userMessage s) as [s1 [e|[r|t c]]] eqn:Hd.
  - rewrite !(generateResponse_Throw _ _ _ _ _ _ _ Hd). reflexivity.
  - rewrite !(generateResponse_Reply _ _ _ _ _ _ _ Hd). reflexivity.
  - rewrite !(generateResponse_CallGemini _ _ _ _ _ _ _ _ Hd). f_equal.
    apply dialogue_return_decision in Hd as (s0 & _ & Hd).
    apply decision_call in Hd as [-> ->].
    unfold askGemini, askGeminiTry, finalPrompt.
    rewrite geminiContext_truthy. fold prompt. rewrite Hp. reflexivity.
Qed.

Lemma fallback_asks_one_prompt_witness :
  generateResponse asciiToLowerCase
    (fun prompt =>
       if String.eqb prompt
            (geminiContext "Merhaba" JUndefined 0%float +:+ newline +:+ "Merhaba")
       then serviceAnswer "Merhaba!" prompt else serviceDown prompt)
    {| intents := Some []; entities := Some noEntities |} "Merhaba" initialSession
  = generateResponse asciiToLowerCase (serviceAnswer "Merhaba!")
      {| intents := Some []; entities := Some noEntities |} "Merhaba" initialSession.
Proof.
  apply (fallback_asks_one_prompt asciiToLowerCase
           (fun prompt =>
              if String.eqb prompt
                   (geminiContext "Merhaba" JUndefined 0%float +:+ newline +:+ "Merhaba")
              then serviceAnswer "Merhaba!" prompt else serviceDown prompt)
           (serviceAnswer "Merhaba!")
           {| intents := Some []; entities := Some noEntities |} "Merhaba" initialSession).
  vm_compute. reflexivity.
Defined.

(** ** Error objects without a usable message *)

(** X8: an error object whose code is not 429 and whose message is missing
    or empty. With code 400 and no message string at all, reading
    [message.includes] throws inside the [try] and the reply is the
    connection apology. In every other case the error object is passed over
    in silence: the reply is the text of the first candidate when there is
    one, and the not-understood string otherwise. *)
Theorem error_without_message
    (fetchGemini : string -> completion (option GeminiData)) (text context : string)
    (data : GeminiData) (err : GeminiError) :
  fetchGemini (finalPrompt text context) = Return (Some data) ->
  error data = Some err ->
  codeIs err 429 = false ->
  truthy (message err) = false ->
  let reply := askGemini fetchGemini text context in
  (codeIs err 400 = true -> message err <> JStr "" -> reply = Return connectionReply)
  /\ (codeIs err 400 = false \/ message err = JStr "" ->
      reply = Return (if truthy (firstCandidateText data)
                      then toStr (firstCandidateText data)
                      else notUnderstoodReply)).
Proof.
  intros Hf He H429 Hm reply. unfold reply.
  rewrite (askGemini_body _ _ _ _ Hf). unfold errorBlock. rewrite He, H429.
  split.
  - intros H400 Hne. rewrite H400.
    destruct (message err) as [| |[|c msg]]; try reflexivity; [congruence|discriminate].
  - intros Hcase. unfold jsOr.
    destruct (codeIs err 400) eqn:H400.
    + destruct Hcase as [Hcase| ->]; [discriminate|]. simpl.
      destruct (truthy (firstCandidateText data)); reflexivity.
    + rewrite Hm. destruct (truthy (firstCandidateText data)); reflexivity.
Qed.

Lemma error_without_message_witness :
  askGemini
    (fun _ => Return (Some {| error := Some {| code := Some 500%Z; message := JStr "" |};
                              candidates := Some [ {| content := Some {| parts := Some [ {| partText := JStr "Merhaba!" |} ] |} |} ] |}))
    "merhaba" ""
  = Return "Merhaba!".
Proof.
  apply (proj2 (error_without_message
                  (fun _ => Return (Some {| error := Some {| code := Some 500%Z; message := JStr "" |};
                                            candidates := Some [ {| content := Some {| parts := Some [ {| partText := JStr "Merhaba!" |} ] |} |} ] |}))
                  "merhaba" ""
                  {| error := Some {| code := Some 500%Z; message := JStr "" |};
                     candidates := Some [ {| content := Some {| parts := Some [ {| partText := JStr "Merhaba!" |} ] |} |} ] |}
                  {| code := Some 500%Z; message := JStr "" |}
                  eq_refl eq_refl eq_refl eq_refl)).
  left. reflexivity.
Defined.

(** ** The request to the classifier *)

Lemma nat_of_ascii_lt (c : Ascii.ascii) : (Ascii.nat_of_ascii c < 256)%nat.
Proof. apply Ascii.nat_ascii_bounded. Qed.

Lemma nat_of_hexDigit (n : nat) :
  (n < 16)%nat ->
  Ascii.nat_of_ascii (hexDigit n) = if (n <? 10)%nat then (48 + n)%nat else (55 + n)%nat.
Proof.
  intros Hn. unfold hexDigit.
  destruct (n <? 10)%nat; apply Ascii.nat_ascii_embedding; lia.
Qed.

Lemma hexDigit_unreserved (n : nat) : (n < 16)%nat -> isUnreserved (hexDigit n) = true.
Proof.
  intros Hn. do 16 (destruct n as [|n]; [reflexivity|]). lia.
Qed.

Lemma hexDigit_inj (n m : nat) :
  (n < 16)%nat -> (m < 16)%nat -> hexDigit n = hexDigit m -> n = m.
Proof.
  intros Hn Hm H. apply (f_equal Ascii.nat_of_ascii) in H.
  rewrite !nat_of_hexDigit in H by assumption.
  destruct (n <? 10)%nat eqn:Hn10, (m <? 10)%nat eqn:Hm10;
    try apply Nat.ltb_lt in Hn10; try apply Nat.ltb_lt in Hm10;
    try apply Nat.ltb_ge in Hn10; try apply Nat.ltb_ge in Hm10; lia.
Qed.

Lemma high_nibble_lt (c : Ascii.ascii) : (Ascii.nat_of_ascii c / 16 < 16)%nat.
Proof. pose proof (nat_of_ascii_lt c). apply Nat.Div0.div_lt_upper_bound. lia. Qed.

Lemma low_nibble_lt (c : Ascii.ascii) : (Ascii.nat_of_ascii c mod 16 < 16)%nat.
Proof. apply Nat.mod_upper_bound. lia. Qed.

Lemma percentSign_reserved : isUnreserved percentSign = false.
Proof. reflexivity. Qed.

Lemma single_char_included (s : string) (c : Ascii.ascii) :
  includes s (String c EmptyString) = true -> In c (String.list_ascii_of_string s).
Proof.
  induction s as [|b s IH]; simpl.
  - discriminate.
  - destruct (Ascii.ascii_dec c b) as [->|Hne].
    + intros _. left. reflexivity.
    + simpl. intros H. right. apply IH, H.
Qed.

Lemma encodeURIComponent_chars (text : string) :
  Forall (fun c => isUnreserved c = true \/ c = percentSign)
    (String.list_ascii_of_string (encodeURIComponent text)).
Proof.
  induction text as [|c text IH]; simpl.
  - constructor.
  - destruct (isUnreserved c) eqn:Hc; simpl.
    + constructor; [left; exact Hc|exact IH].
    + constructor; [right; reflexivity|].
      constructor; [left; apply hexDigit_unreserved; exact (high_nibble_lt c)|].
      constructor; [left; apply hexDigit_unreserved; exact (low_nibble_lt c)|].
      exact IH.
Qed.

(** X9: the text of the user cannot alter the request to the classifier.
    In the URL of line 30 the text appears after [&q=] with every byte that
    is not a letter, a digit or one of [- _ . ! ~ * ' ( )] written as [%XX],
    so the encoded text holds no such byte as it is: no [&], [=], [#], [?],
    [/], [+] and no space. *)
Theorem query_text_is_escaped (text : string) :
  witUrl text = "https://api.wit.ai/message?v=20250710&q=" +:+ encodeURIComponent text
  /\ Forall (fun c => isUnreserved c = true \/ c = percentSign)
       (String.list_ascii_of_string (encodeURIComponent text))
  /\ (forall c, isUnreserved c = false -> c <> percentSign ->
        includes (encodeURIComponent text) (String c EmptyString) = false)
  /\ Forall (fun sep => includes (encodeURIComponent text) sep = false)
       [ "&"; "="; "#"; "?"; "/"; "+"; " " ].
Proof.
  assert (Hsep : forall c, isUnreserved c = false -> c <> percentSign ->
            includes (encodeURIComponent text) (String c EmptyString) = false).
  { intros c Hc Hp.
    destruct (includes (encodeURIComponent text) (String c EmptyString)) eqn:Hi;
      [exfalso|reflexivity].
    apply single_char_included in Hi.
    pose proof (encodeURIComponent_chars text) as Hall.
    rewrite Forall_forall in Hall. apply list_elem_of_In in Hi.
    destruct (Hall c Hi) as [H|H]; congruence. }
  split; [reflexivity|]. split; [apply encodeURIComponent_chars|]. split; [exact Hsep|].
  repeat constructor; apply Hsep; (reflexivity || discriminate).
Qed.

Lemma percentEncode_append (c : Ascii.ascii) (x : string) :
  percentEncode c +:+ x
  = String percentSign
      (String (hexDigit (Ascii.nat_of_ascii c / 16))
         (String (hexDigit (Ascii.nat_of_ascii c mod 16)) x)).
Proof. reflexivity. Qed.

Lemma single_append (c : Ascii.ascii) (x : string) : String c EmptyString +:+ x = String c x.
Proof. reflexivity. Qed.

Lemma encodeChar_inj (a b : Ascii.ascii) (x y : string) :
  (if isUnreserved a then String a EmptyString else percentEncode a) +:+ x
  = (if isUnreserved b then String b EmptyString else percentEncode b) +:+ y ->
  a = b /\ x = y.
Proof.
  rewrite ?percentEncode_append, ?single_append.
  destruct (isUnreserved a) eqn:Hua, (isUnreserved b) eqn:Hub;
    rewrite ?percentEncode_append, ?single_append; intros H.
  - injection H as -> ->. auto.
  - injection H as -> _. rewrite percentSign_reserved in Hua. discriminate Hua.
  - injection H as <- _. rewrite percentSign_reserved in Hub. discriminate Hub.
  - injection H as Hhi Hlo ->. split; [|reflexivity].
    assert (Hhi' : (Ascii.nat_of_ascii a / 16 = Ascii.nat_of_ascii b / 16)%nat)
      by (apply hexDigit_inj; [apply high_nibble_lt|apply high_nibble_lt|exact Hhi]).
    assert (Hlo' : (Ascii.nat_of_ascii a mod 16 = Ascii.nat_of_ascii b mod 16)%nat)
      by (apply hexDigit_inj; [apply low_nibble_lt|apply low_nibble_lt|exact Hlo]).
    rewrite <- (Ascii.ascii_nat_embedding a), <- (Ascii.ascii_nat_embedding b).
    f_equal.
    pose proof (Nat.div_mod_eq (Ascii.nat_of_ascii a) 16) as Ea.
    pose proof (Nat.div_mod_eq (Ascii.nat_of_ascii b) 16) as Eb.
    rewrite Ea, Eb, Hhi', Hlo'. reflexivity.
Qed.

(** X10: different texts are sent as different requests: the encoding of
    line 30 loses nothing of the message, so two texts give the same URL
    only when they are the same text. *)
Theorem request_url_determines_text (text1 text2 : string) :
  witUrl text1 = witUrl text2 <-> text1 = text2.
Proof.
  split; [|intros ->; reflexivity].
  unfold witUrl. intros H.
  assert (He : encodeURIComponent text1 = encodeURIComponent text2).
  { simpl in H. repeat injection H as H. exact H. }
  clear H. revert text2 He.
  induction text1 as [|a s1 IH]; intros [|b s2] He; simpl in He.
  - reflexivity.
  - exfalso. destruct (isUnreserved b); discriminate He.
  - exfalso. destruct (isUnreserved a); discriminate He.
  - apply encodeChar_inj in He as [-> He]. f_equal. apply IH, He.
Qed.

(** ** A classifier answer that is not a success *)

Section Rejected.

Variable toLowerCase : string -> string.
Variable fetchGemini : string -> completion (option GeminiData).
Variable WIT_TOKEN : string.
Variable fetchWit : string -> string -> completion WitResponse.

Lemma askWit_rejected (text : string) (res : WitResponse) :
  fetchWit (witUrl text) ("Bearer " +:+ WIT_TOKEN) = Return res ->
  ok res = false ->
  exists e, askWit WIT_TOKEN fetchWit text = Throw e.
Proof.
  intros Hf Hok. unfold askWit. rewrite Hf, Hok. simpl.
  destruct (responseText res) as [e|errorText]; eauto.
Qed.

Lemma chatTurn_classifier_throws (askWit' : string -> completion WitData)
    (userInput : string) (e : jsError) (s : Session) :
  askWit' userInput = Throw e ->
  chatTurn toLowerCase fetchGemini askWit' userInput s = (s, turnFailedReply).
Proof.
  intros H. unfold chatTurn. rewrite chatTry_unfold, H. reflexivity.
Qed.

Lemma postChat_classifier_throws (askWit' : string -> completion WitData)
    (message : BodyMessage) (e : jsError) (s : Session) :
  messageTruthy message = true ->
  askWit' (messageText message) = Throw e ->
  postChat toLowerCase fetchGemini askWit' message s
  = (s, {| statusCode := 500; responseBody := ErrorBody "Sunucu hatası" |}).
Proof.
  intros Ht H. unfold postChat, bind, evalExpr. rewrite Ht, H. reflexivity.
Qed.

End Rejected.

(** X11: a response of the classifier service whose [ok] flag is false,
    whatever its status, its body and even when that body is a well-formed
    classifier answer, makes [askWit] throw an error that carries status,
    status text and body; the turn then leaves the session as it found it,
    the reply line of the chat loop is the generic failure reply and the
    HTTP endpoint answers 500 with its fixed error body. *)
Theorem rejected_classifier_answer_fails_turn
    (toLowerCase : string -> string)
    (fetchGemini : string -> completion (option GeminiData))
    (WIT_TOKEN : string) (fetchWit : string -> string -> completion WitResponse)
    (userInput : string) (res : WitResponse) (s : Session) :
  fetchWit (witUrl userInput) ("Bearer " +:+ WIT_TOKEN) = Return res ->
  ok res = false ->
  let classifier := askWit WIT_TOKEN fetchWit in
  (forall errorText,
     responseText res = Return errorText ->
     classifier userInput
     = Throw (Error ("Wit.ai Hatası: " +:+ showNat (status res) +:+ " - "
                     +:+ statusText res +:+ " - Detay: " +:+ errorText)))
  /\ chatTurn toLowerCase fetchGemini classifier userInput s = (s, turnFailedReply)
  /\ (userInput <> "" ->
      postChat toLowerCase fetchGemini classifier (TextMessage userInput) s
      = (s, {| statusCode := 500; responseBody := ErrorBody "Sunucu hatası" |})).
Proof.
  intros Hf Hok classifier.
  destruct (askWit_rejected WIT_TOKEN fetchWit userInput res Hf Hok) as [e He].
  split; [|split].
  - intros errorText Ht. unfold classifier, askWit. rewrite Hf, Hok, Ht. reflexivity.
  - apply (chatTurn_classifier_throws _ _ _ _ e), He.
  - intros Hne. apply (postChat_classifier_throws _ _ _ _ e); [|exact He].
    destruct userInput; [congruence|reflexivity].
Qed.

Lemma rejected_classifier_answer_fails_turn_witness :
  chatTurn asciiToLowerCase serviceDown (askWit "token" (witAnswers rejectedResponse))
    "randevu almak istiyorum" midFlowSession
  = (midFlowSession, turnFailedReply).
Proof.
  apply (rejected_classifier_answer_fails_turn asciiToLowerCase serviceDown "token"
           (witAnswers rejectedResponse) "randevu almak istiyorum" rejectedResponse
           midFlowSession); reflexivity.
Defined.

(** ** The HTTP endpoint *)

Section Endpoint.

Variable toLowerCase : string -> string.
Variable fetchGemini : string -> completion (option GeminiData).
Variable askWit : string -> completion WitData.

Lemma postChat_text (userMessage : string) (s : Session) :
  userMessage <> "" ->
  postChat toLowerCase fetchGemini askWit (TextMessage userMessage) s
  = match chatTry toLowerCase fetchGemini askWit userMessage s with
    | (s', Return botResponse) =>
        (s', {| statusCode := 200; responseBody := ReplyBody botResponse |})
    | (s', Throw err) =>
        (s', {| statusCode := 500; responseBody := ErrorBody "Sunucu hatası" |})
    end.
Proof.
  intros Hne. unfold postChat, chatTry.
  destruct userMessage as [|c u]; [congruence|]. reflexivity.
Qed.

Lemma postChat_other (asString : string) (s : Session) :
  postChat toLowerCase fetchGemini askWit (OtherMessage asString) s
  = (s, {| statusCode := 500; responseBody := ErrorBody "Sunucu hatası" |}).
Proof.
  unfold postChat, bind, evalExpr. simpl.
  destruct (askWit asString); reflexivity.
Qed.

Lemma chatTry_reply_nonempty (userInput r : string) (s s' : Session) :
  chatTry toLowerCase fetchGemini askWit userInput s = (s', Return r) -> r <> "".
Proof.
  rewrite chatTry_unfold. destruct (askWit userInput) as [e|witData]; [discriminate|].
  intros H.
  destruct (dialogue toLowerCase witData userInput s) as [s1 [e|[r1|t c]]] eqn:Hd.
  - rewrite (generateResponse_Throw _ _ _ _ _ _ _ Hd) in H. discriminate H.
  - rewrite (generateResponse_Reply _ _ _ _ _ _ _ Hd) in H. injection H as _ <-.
    apply dialogue_return_decision in Hd as (s0 & _ & Hd).
    apply (decision_reply_nonempty _ _ _ _ _ _ Hd).
  - rewrite (generateResponse_CallGemini _ _ _ _ _ _ _ _ Hd) in H. injection H as _ H.
    apply (askGemini_nonempty _ _ _ _ H).
Qed.

End Endpoint.

(** X12: the answers of [POST /chat]. A missing, [null], empty or otherwise
    falsy message is answered 400 without any call to a service and leaves
    the session as it is; every other request is answered 200 or 500. An
    answer other than 200 leaves the session exactly as the request found
    it. A truthy message that is not a string is always answered 500. A 200
    answer carries a reply that is not empty. *)
Theorem postChat_answers
    (toLowerCase : string -> string)
    (fetchGemini : string -> completion (option GeminiData))
    (askWit : string -> completion WitData)
    (message : BodyMessage) (s : Session) :
  let answer := postChat toLowerCase fetchGemini askWit message s in
  (messageTruthy message = false ->
   forall fetch' askWit',
     postChat toLowerCase fetch' askWit' message s
     = (s, {| statusCode := 400; responseBody := ErrorBody "message alanı zorunludur" |}))
  /\ (messageTruthy message = true ->
      statusCode answer.2 = 200 \/ statusCode answer.2 = 500)
  /\ (statusCode answer.2 <> 200 -> answer.1 = s)
  /\ (forall asString, message = OtherMessage asString -> statusCode answer.2 = 500)
  /\ (forall r, responseBody answer.2 = ReplyBody r ->
        statusCode answer.2 = 200 /\ r <> "").
Proof.
  intros answer. unfold answer.
  split.
  { intros Hf fetch' askWit'. unfold postChat. rewrite Hf. reflexivity. }
  destruct message as [|userMessage|asString].
  - split; [discriminate|]. split; [reflexivity|]. split; [discriminate|].
    simpl. intros r [=].
  - destruct (String.eqb_spec userMessage "") as [->|Hne].
    + split; [discriminate|]. split; [reflexivity|]. split; [discriminate|].
      simpl. intros r [=].
    + rewrite (postChat_text _ _ _ _ _ Hne).
      destruct (chatTry toLowerCase fetchGemini askWit userMessage s)
        as [s' [e|r0]] eqn:Ht; simpl.
      * apply chatTry_throw in Ht. subst s'.
        split; [auto|]. split; [reflexivity|]. split; [discriminate|]. intros r [=].
      * split; [auto|]. split; [congruence|]. split; [discriminate|].
        intros r [= <-]. split; [reflexivity|].
        apply (chatTry_reply_nonempty _ _ _ _ _ _ _ Ht).
  - rewrite postChat_other. simpl.
    split; [auto|]. split; [reflexivity|]. split; [reflexivity|]. intros r [=].
Qed.

Lemma postChat_answers_witness :
  postChat asciiToLowerCase serviceDown classifierDown (TextMessage "") midFlowSession
  = (midFlowSession,
     {| statusCode := 400; responseBody := ErrorBody "message alanı zorunludur" |}).
Proof.
  apply (proj1 (postChat_answers asciiToLowerCase (serviceAnswer "x")
                  (fun _ => Return {| intents := None; entities := None |})
                  (TextMessage "") midFlowSession)).
  reflexivity.
Defined.

(** X13: the two adapters run the same turn. For a message that is a
    non-empty string, the HTTP endpoint and a turn of the chat loop leave
    the same session; when the turn returns a reply the endpoint answers 200
    with the very reply the loop prints, and when it throws the session is
    the one before the turn, the endpoint answers 500 and the loop prints
    the generic failure reply. *)
Theorem adapters_run_the_same_turn
    (toLowerCase : string -> string)
    (fetchGemini : string -> completion (option GeminiData))
    (askWit : string -> completion WitData)
    (userMessage : string) (s : Session) :
  userMessage <> "" ->
  let request := postChat toLowerCase fetchGemini askWit (TextMessage userMessage) s in
  let turn := chatTurn toLowerCase fetchGemini askWit userMessage s in
  request.1 = turn.1
  /\ (forall r, responseBody request.2 = ReplyBody r ->
        statusCode request.2 = 200 /\ turn.2 = r)
  /\ (statusCode request.2 = 500 -> turn = (s, turnFailedReply)).
Proof.
  intros Hne request turn. unfold request, turn, chatTurn.
  rewrite (postChat_text _ _ _ _ _ Hne).
  destruct (chatTry toLowerCase fetchGemini askWit userMessage s) as [s' [e|r0]] eqn:Ht;
    simpl.
  - apply chatTry_throw in Ht. subst s'.
    split; [reflexivity|]. split; [intros r [=]|reflexivity].
  - split; [reflexivity|]. split; [intros r [= <-]; auto|discriminate].
Qed.

Lemma adapters_run_the_same_turn_witness :
  (postChat asciiToLowerCase serviceDown
     (fun _ => Return {| intents := bookingIntent 0.9; entities := Some noEntities |})
     (TextMessage "randevu") initialSession).1
  = (chatTurn asciiToLowerCase serviceDown
       (fun _ => Return {| intents := bookingIntent 0.9; entities := Some noEntities |})
       "randevu" initialSession).1.
Proof.
  apply (adapters_run_the_same_turn asciiToLowerCase serviceDown
           (fun _ => Return {| intents := bookingIntent 0.9; entities := Some noEntities |})
           "randevu" initialSession).
  discriminate.
Defined.

(** ** The chat loop *)

Section Loop.

Variable toLowerCase : string -> string.
Variable fetchGemini : string -> completion (option GeminiData).
Variable askWit : string -> completion WitData.

Lemma chatLoop_no_exit (rounds : list (string * list string)) (s : Session) :
  Forall (fun r => toLowerCase r.1 <> "exit") rounds ->
  (chatLoop toLowerCase fetchGemini askWit rounds s).1
  = fold_left (fun s r => (chatTurn toLowerCase fetchGemini askWit r.1 s).1) rounds s
  /\ length (chatLoop toLowerCase fetchGemini askWit rounds s).2 = length rounds.
Proof.
  intros H. revert s. induction H as [|[l unread] rest Hl _ IH]; intros s; simpl.
  - auto.
  - simpl in Hl. apply String.eqb_neq in Hl. rewrite Hl.
    destruct (chatTurn toLowerCase fetchGemini askWit l s) as [s' r] eqn:Ht.
    specialize (IH s').
    destruct (chatLoop toLowerCase fetchGemini askWit rest s') as [s'' out].
    simpl in *. destruct IH as [IH1 IH2]. split; [exact IH1|]. f_equal. exact IH2.
Qed.

Lemma chatLoop_app_exit (before after : list (string * list string))
    (userInput : string) (unread : list string) (s : Session) :
  Forall (fun r => toLowerCase r.1 <> "exit") before ->
  toLowerCase userInput = "exit" ->
  chatLoop toLowerCase fetchGemini askWit (before ++ (userInput, unread) :: after) s
  = ((chatLoop toLowerCase fetchGemini askWit before s).1,
     (chatLoop toLowerCase fetchGemini askWit before s).2 ++ [farewellLine]).
Proof.
  intros H He. revert s. induction H as [|[l unread'] rest Hl _ IH]; intros s; simpl.
  - rewrite He. reflexivity.
  - simpl in Hl. apply String.eqb_neq in Hl. rewrite Hl.
    destruct (chatTurn toLowerCase fetchGemini askWit l s) as [s' r].
    rewrite (IH s').
    destruct (chatLoop toLowerCase fetchGemini askWit rest s') as [s'' out].
    reflexivity.
Qed.

End Loop.

(** X14: the chat loop, read in rounds: a line that answers the pending
    question, and the lines that arrive while its turn is still running. The
    loop ends at the first answering line whose lower-cased text is [exit],
    and only there. Every answering line before it gets exactly one line of
    output, also when a service fails on it; the farewell follows; whatever
    arrives after [exit] is never read. The lines that arrive during a turn,
    an [exit] among them, change neither the session nor the output: the
    session is the one the turns of the answering lines leave. *)
Theorem chatLoop_ends_at_exit
    (toLowerCase : string -> string)
    (fetchGemini : string -> completion (option GeminiData))
    (askWit : string -> completion WitData)
    (before after : list (string * list string))
    (userInput : string) (unread : list string) (s : Session) :
  Forall (fun r => toLowerCase r.1 <> "exit") before ->
  toLowerCase userInput = "exit" ->
  let run :=
    chatLoop toLowerCase fetchGemini askWit (before ++ (userInput, unread) :: after) s in
  let turns := chatLoop toLowerCase fetchGemini askWit before s in
  run = (turns.1, turns.2 ++ [farewellLine])
  /\ length run.2 = S (length before)
  /\ run.1 = fold_left (fun s r => (chatTurn toLowerCase fetchGemini askWit r.1 s).1)
               before s.
Proof.
  intros H He run turns. unfold run, turns.
  rewrite (chatLoop_app_exit _ _ _ _ _ _ _ _ H He).
  destruct (chatLoop_no_exit toLowerCase fetchGemini askWit before s H) as [H1 H2].
  split; [reflexivity|]. split.
  - simpl. rewrite length_app, H2. simpl. lia.
  - exact H1.
Qed.

Lemma chatLoop_ends_at_exit_witness :
  chatLoop asciiToLowerCase serviceDown classifierDown
    [ ("randevu", [ "exit" ]); ("EXIT", []); ("randevu almak istiyorum", []) ]
    filledSession
  = (filledSession, [ "Bot: " +:+ turnFailedReply; farewellLine ]).
Proof.
  apply (chatLoop_ends_at_exit asciiToLowerCase serviceDown classifierDown
           [ ("randevu", [ "exit" ]) ] [ ("randevu almak istiyorum", []) ] "EXIT" []
           filledSession).
  - repeat constructor. discriminate.
  - reflexivity.
Defined.

(** Three lines written to standard input in one go: the first answers the
    question, the other two arrive while its turn is running and are lost,
    the [exit] among them too. One reply is printed and no farewell. *)
Example chatLoop_lines_in_one_go :
  chatLoop asciiToLowerCase serviceDown classifierDown
    [ ("randevu", [ "EXIT"; "randevu almak istiyorum" ]) ] filledSession
  = (filledSession, [ "Bot: " +:+ turnFailedReply ]).
Proof. reflexivity. Qed.

(** ** One session for both adapters *)

Section Shared.

Variable toLowerCase : string -> string.
Variable fetchGemini : string -> completion (option GeminiData).
Variable askWit : string -> completion WitData.

Lemma postChat_session (userMessage : string) (s : Session) :
  userMessage <> "" ->
  (postChat toLowerCase fetchGemini askWit (TextMessage userMessage) s).1
  = (chatTurn toLowerCase fetchGemini askWit userMessage s).1.
Proof.
  intros Hne. rewrite (postChat_text _ _ _ _ _ Hne). unfold chatTurn.
  destruct (chatTry toLowerCase fetchGemini askWit userMessage s) as [s' [e|r]];
    reflexivity.
Qed.

Lemma serverProcess_closed (events : list Event) (s : Session) :
  serverProcess toLowerCase fetchGemini askWit events false s
  = serverProcess toLowerCase fetchGemini askWit (requestsOf events) true s.
Proof.
  revert s. induction events as [|[userInput|message] rest IH]; intros s; simpl.
  - reflexivity.
  - apply IH.
  - destruct (postChat toLowerCase fetchGemini askWit message s) as [s' response].
    rewrite IH. reflexivity.
Qed.

End Shared.

(** X15: the HTTP endpoint and the chat loop of one [server.js] process work
    on one session. When lines that are not [exit] and requests with a
    non-empty string message arrive one after another, in any mix, the
    session at the end is the one a single conversation with the same texts
    in the same order leaves, and every event gets exactly one output. *)
Theorem adapters_share_the_session
    (toLowerCase : string -> string)
    (fetchGemini : string -> completion (option GeminiData))
    (askWit : string -> completion WitData)
    (events : list Event) (s : Session) :
  Forall (turnEvent toLowerCase) events ->
  let run := serverProcess toLowerCase fetchGemini askWit events true s in
  run.1 = fold_left (fun s text => (chatTurn toLowerCase fetchGemini askWit text s).1)
            (map eventText events) s
  /\ length run.2 = length events.
Proof.
  intros H. revert s. induction H as [|ev rest Hev _ IH]; intros s; simpl.
  - auto.
  - destruct ev as [userInput|message]; simpl in Hev.
    + apply String.eqb_neq in Hev. rewrite Hev.
      destruct (chatTurn toLowerCase fetchGemini askWit userInput s) as [s' r] eqn:Ht.
      specialize (IH s').
      destruct (serverProcess toLowerCase fetchGemini askWit rest true s') as [s'' out].
      simpl in *. rewrite ?Ht. simpl.
      destruct IH as [IH1 IH2]. split; [exact IH1|]. f_equal. exact IH2.
    + destruct Hev as (t & -> & Hne).
      pose proof (postChat_session toLowerCase fetchGemini askWit t s Hne) as Hs.
      destruct (postChat toLowerCase fetchGemini askWit (TextMessage t) s)
        as [s' response].
      simpl in Hs. subst s'. specialize (IH (chatTurn toLowerCase fetchGemini askWit t s).1).
      destruct (serverProcess toLowerCase fetchGemini askWit rest true _) as [s'' out].
      simpl in *. destruct IH as [IH1 IH2]. split; [exact IH1|]. f_equal. exact IH2.
Qed.

Lemma adapters_share_the_session_witness :
  (serverProcess asciiToLowerCase serviceDown
     (fun text =>
        Return {| intents := bookingIntent 0.9;
                  entities := if String.eqb text "Acibadem" then Some facilityEntities
                              else Some noEntities |})
     [ ChatRequest (TextMessage "randevu"); StdinLine "Acibadem" ] true initialSession).1
  = mergedSession facilityEntities (mergedSession noEntities initialSession).
Proof.
  etransitivity.
  - apply (adapters_share_the_session asciiToLowerCase serviceDown
             (fun text =>
                Return {| intents := bookingIntent 0.9;
                          entities := if String.eqb text "Acibadem" then Some facilityEntities
                                      else Some noEntities |})
             [ ChatRequest (TextMessage "randevu"); StdinLine "Acibadem" ] initialSession).
    repeat constructor.
    + exists "randevu". split; [reflexivity|discriminate].
    + discriminate.
  - vm_compute. reflexivity.
Defined.

(** X16: [exit] closes the chat loop, not the endpoint. Once the loop is
    closed, lines on standard input are dropped without output or effect,
    while requests are answered as before, on the session the loop left:
    the run equals the run of the requests alone. *)
Theorem exit_leaves_endpoint_running
    (toLowerCase : string -> string)
    (fetchGemini : string -> completion (option GeminiData))
    (askWit : string -> completion WitData)
    (userInput : string) (events : list Event) (s : Session) :
  toLowerCase userInput = "exit" ->
  let rest := serverProcess toLowerCase fetchGemini askWit (requestsOf events) true s in
  serverProcess toLowerCase fetchGemini askWit (StdinLine userInput :: events) true s
  = (rest.1, Printed farewellLine :: rest.2).
Proof.
  intros He rest. unfold rest. simpl. rewrite He. simpl.
  rewrite serverProcess_closed.
  destruct (serverProcess toLowerCase fetchGemini askWit (requestsOf events) true s).
  reflexivity.
Qed.

Lemma exit_leaves_endpoint_running_witness :
  serverProcess asciiToLowerCase serviceDown
    (fun _ => Return {| intents := bookingIntent 0.9; entities := Some noEntities |})
    [ StdinLine "Exit"; StdinLine "randevu"; ChatRequest (TextMessage "randevu") ]
    true initialSession
  = (mergedSession noEntities initialSession,
     [ Printed farewellLine;
       Responded {| statusCode := 200; responseBody := ReplyBody askHastane |} ]).
Proof.
  apply (exit_leaves_endpoint_running asciiToLowerCase serviceDown
           (fun _ => Return {| intents := bookingIntent 0.9; entities := Some noEntities |})
           "Exit" [ StdinLine "randevu"; ChatRequest (TextMessage "randevu") ]
           initialSession).
  reflexivity.
Defined.

(** ** No booking without all three slots *)

Lemma successReply_distinct (k : Slot) (s : Session) :
  cancelReply <> successReply
  /\ question k <> successReply
  /\ confirmationMessage s <> successReply.
Proof.
  repeat split; try destruct k; intros H;
    unfold confirmationMessage in H; simpl in H; discriminate H.
Qed.

(** X17: the manager never confirms a booking with a slot missing. When its
    own decision is the success reply, the merge of that turn succeeded and
    left all three slots filled, the lower-cased message contains [evet] and
    no cancellation keyword, and the session is reset to all [null]. *)
Theorem booking_needs_all_slots
    (toLowerCase : string -> string) (witData : WitData) (userMessage : string)
    (s s' : Session) :
  dialogue toLowerCase witData userMessage s = (s', Return (Reply successReply)) ->
  exists s1,
    mergeEntities (entities witData) s = (s1, Return tt)
    /\ allFilled s1 = true
    /\ includes (toLowerCase userMessage) "evet" = true
    /\ hasCancelKeyword (toLowerCase userMessage) = false
    /\ s' = initialSession.
Proof.
  intros H. apply dialogue_return_decision in H as (s1 & Hm & Hd).
  exists s1. split; [exact Hm|].
  destruct (successReply_distinct Facility s1) as (Hcancel & Hq1 & Hconf).
  destruct (successReply_distinct Department s1) as (_ & Hq2 & _).
  destruct (successReply_distinct DateTime s1) as (_ & Hq3 & _).
  unfold decision, allFilled in *. simpl in Hq1, Hq2, Hq3.
  destruct (hasCancelKeyword (toLowerCase userMessage)); [congruence|].
  destruct (flowCondition _ _ _ s1); [|discriminate Hd].
  destruct (truthy (hastane s1)); simpl in Hd; [|congruence].
  destruct (truthy (bolum s1)); simpl in Hd; [|congruence].
  destruct (truthy (datetime s1)); simpl in Hd; [|congruence].
  destruct (includes (toLowerCase userMessage) "evet"); simpl in Hd; [|congruence].
  injection Hd as <-. auto.
Qed.

Lemma booking_needs_all_slots_witness :
  exists s1,
    mergeEntities (Some noEntities) filledSession = (s1, Return tt)
    /\ allFilled s1 = true
    /\ includes (asciiToLowerCase "Evet") "evet" = true
    /\ hasCancelKeyword (asciiToLowerCase "Evet") = false
    /\ initialSession = initialSession.
Proof.
  apply (booking_needs_all_slots asciiToLowerCase
           {| intents := Some []; entities := Some noEntities |} "Evet"
           filledSession initialSession).
  vm_compute. reflexivity.
Defined.
